(** * prompt-stack: the workspace page's session coordinator and the REST client

    A shallow embedding of

    - [WorkspacePage] (the workspace page component): the React state of the
      page, [initializeWebSocket] / [connectWS] with the socket callbacks it
      installs, the inbound dispatcher [handleSocketMessage] with its three
      handlers, and [handleSendMessage];
    - [ApiClient] (lib/api.js): [_get], [_post], [_delete], [_patch] and the
      public methods built on them;
    - [Sidebar]: its handlers and the grouping of the chats by project.

    React state is a record, one field per [useState] cell, and every
    [setX] call is a function on that record; a functional updater
    [setX(prev => ...)] is the same function applied to the current value.
    Calls on collaborators outside the page (the socket service, the REST
    client, the router, the user context) are appended to a log. *)

From Stdlib Require Import ZArith NArith Ascii Lia.
From stdpp Require Import base list gmap strings pretty.
From Stdlib Require Import Sorted Permutation.

Open Scope string_scope.
Open Scope list_scope.

(** ** JavaScript values the page manipulates *)

Inductive js_error :=
| TypeError (msg : string)      (* raised by the engine: property of null/undefined *)
| Error (msg : string)          (* [new Error(msg)] *)
| ErrorEvent (src : nat)        (* the event object a socket passes to [onerror] *)
| SyntaxError (msg : string).   (* [res.json()] on a body that is not JSON *)

Inductive completion (A : Type) :=
| Normal (a : A)
| Throw (e : js_error).
Arguments Normal {A} a.
Arguments Throw {A} e.

(** A transcript entry [{role, content, images}]; [images] is absent
    ([None]) on entries built by [handleChatChunk] and on entries loaded
    from the project. *)
Module Message.
Record t := mk {
  role : string;
  content : string;
  images : option (list string)
}.
End Message.

(** The status badge object [{status, color}]. *)
Module Badge.
Record t := mk { status : string; color : string }.
End Badge.

Definition Disconnected : Badge.t := Badge.mk "Disconnected" "bg-gray-500".
Definition SettingUp : Badge.t := Badge.mk "Setting up (~3m)" "bg-yellow-500".
Definition Ready : Badge.t := Badge.mk "Ready" "bg-green-500".

(** An inbound frame, decoded.  Fields a frame does not carry are the empty
    value of their type, except the two whose absence the handlers observe:
    [tunnels] (indexing an absent object throws) and [suggested_follow_ups]
    (tested for truthiness; an array, even an empty one, is truthy). *)
Module Data.
Record t := mk {
  for_type : string;
  status : string;
  tunnels : option (gmap N string);
  content : string;
  complete : bool;
  suggested_follow_ups : option (list string);
  paths : list string
}.
End Data.

(** ** The page's React state *)

Record model := Model {
  projectId : option string;
  isPreviewOpen : bool;
  messages : list Message.t;
  respStreaming : bool;
  chatTitle : string;
  projectPreviewUrl : option string;
  projectFileTree : list string;
  projectStackPackId : option string;
  suggestedFollowUps : list string;
  previewHash : Z;
  status : Badge.t
}.

Definition initialModel : model :=
  Model None false [] false "New Chat" None [] None [] 1 Disconnected.

Definition setMessages (f : list Message.t -> list Message.t) (m : model) : model :=
  Model (projectId m) (isPreviewOpen m) (f (messages m)) (respStreaming m)
        (chatTitle m) (projectPreviewUrl m) (projectFileTree m)
        (projectStackPackId m) (suggestedFollowUps m) (previewHash m) (status m).

Definition setRespStreaming (b : bool) (m : model) : model :=
  Model (projectId m) (isPreviewOpen m) (messages m) b
        (chatTitle m) (projectPreviewUrl m) (projectFileTree m)
        (projectStackPackId m) (suggestedFollowUps m) (previewHash m) (status m).

Definition setProjectPreviewUrl (u : option string) (m : model) : model :=
  Model (projectId m) (isPreviewOpen m) (messages m) (respStreaming m)
        (chatTitle m) u (projectFileTree m)
        (projectStackPackId m) (suggestedFollowUps m) (previewHash m) (status m).

Definition setProjectFileTree (t : list string) (m : model) : model :=
  Model (projectId m) (isPreviewOpen m) (messages m) (respStreaming m)
        (chatTitle m) (projectPreviewUrl m) t
        (projectStackPackId m) (suggestedFollowUps m) (previewHash m) (status m).

Definition setSuggestedFollowUps (l : list string) (m : model) : model :=
  Model (projectId m) (isPreviewOpen m) (messages m) (respStreaming m)
        (chatTitle m) (projectPreviewUrl m) (projectFileTree m)
        (projectStackPackId m) l (previewHash m) (status m).

Definition setPreviewHash (f : Z -> Z) (m : model) : model :=
  Model (projectId m) (isPreviewOpen m) (messages m) (respStreaming m)
        (chatTitle m) (projectPreviewUrl m) (projectFileTree m)
        (projectStackPackId m) (suggestedFollowUps m) (f (previewHash m)) (status m).

Definition setStatus (s : Badge.t) (m : model) : model :=
  Model (projectId m) (isPreviewOpen m) (messages m) (respStreaming m)
        (chatTitle m) (projectPreviewUrl m) (projectFileTree m)
        (projectStackPackId m) (suggestedFollowUps m) (previewHash m) s.

(** ** Inbound handlers (the closures created inside [connectWS]) *)

(** The updater passed to [setMessages] by [handleChatChunk]:
    [prev[prev.length - 1]] is [last prev], [prev.slice(0, -1)] is
    [removelast prev], and the spread keeps the last entry's other fields. *)
Definition chunkUpdater (data : Data.t) (prev : list Message.t) : list Message.t :=
  match last prev with
  | Some lastMessage =>
      if String.eqb (Message.role lastMessage) "assistant"
      then removelast prev ++
           [Message.mk (Message.role lastMessage)
                       (Message.content lastMessage +:+ Data.content data)
                       (Message.images lastMessage)]
      else prev ++ [Message.mk "assistant" (Data.content data) None]
  | None => prev ++ [Message.mk "assistant" (Data.content data) None]
  end.

Definition handleChatChunk (data : Data.t) (m : model) : model :=
  let m1 := setMessages (chunkUpdater data) m in
  let m2 := if Data.complete data
            then setPreviewHash (fun prev => prev + 1)%Z (setRespStreaming false m1)
            else m1 in
  match Data.suggested_follow_ups data with
  | Some l => setSuggestedFollowUps l m2
  | None => m2
  end.

Definition handleSandboxStatus (data : Data.t) (m : model) : model * completion unit :=
  if String.eqb (Data.status data) "READY" then
    let m1 := setStatus Ready m in
    match Data.tunnels data with
    | Some t => (setProjectPreviewUrl (t !! 3000%N) m1, Normal tt)
    | None => (m1, Throw (TypeError "Cannot read properties of undefined (reading '3000')"))
    end
  else if String.eqb (Data.status data) "BUILDING" then
    (setStatus SettingUp m, Normal tt)
  else (m, Normal tt).

Definition handleSandboxFileTree (data : Data.t) (m : model) : model :=
  setProjectFileTree (Data.paths data) m.

Definition handleSocketMessage (data : Data.t) (m : model) : model * completion unit :=
  if String.eqb (Data.for_type data) "sandbox_status" then
    handleSandboxStatus data m
  else if String.eqb (Data.for_type data) "chat_chunk" then
    (handleChatChunk data m, Normal tt)
  else if String.eqb (Data.for_type data) "sandbox_file_tree" then
    (handleSandboxFileTree data m, Normal tt)
  else (m, Normal tt).

(** Frames are dispatched one at a time, in arrival order; a handler that
    throws does not stop later frames from being dispatched (the exception
    belongs to that one callback invocation). *)
Definition dispatchAll (frames : list Data.t) (m : model) : model :=
  foldl (fun acc data => fst (handleSocketMessage data acc)) m frames.

Definition raises {A} (c : completion A) : bool :=
  match c with Normal _ => false | Throw _ => true end.

(** ** Strings: [trim] and [includes]

    A [string] holds the UTF-8 encoding of the JavaScript string: a code
    point is one to four bytes, and no byte inside the encoding of one code
    point starts the encoding of another.  [trim] strips the ECMAScript
    WhiteSpace and LineTerminator code points: U+0009..U+000D, U+0020,
    U+00A0, U+1680, U+2000..U+200A, U+2028, U+2029, U+202F, U+205F, U+3000
    and U+FEFF. *)

Definition byte (c : ascii) : N := Ascii.N_of_ascii c.

(** U+0009..U+000D and U+0020, one byte each. *)
Definition isWhiteSpace1 (a : ascii) : bool :=
  ((9 <=? byte a) && (byte a <=? 13) || (byte a =? 32))%N.

(** U+00A0, encoded C2 A0. *)
Definition isWhiteSpace2 (a b : ascii) : bool :=
  ((byte a =? 194) && (byte b =? 160))%N.

(** U+1680 (E1 9A 80), U+2000..U+200A (E2 80 80..8A), U+2028, U+2029 and
    U+202F (E2 80 A8, A9, AF), U+205F (E2 81 9F), U+3000 (E3 80 80) and
    U+FEFF (EF BB BF). *)
Definition isWhiteSpace3 (a b c : ascii) : bool :=
  ((byte a =? 225) && (byte b =? 154) && (byte c =? 128)
   || (byte a =? 226) && (byte b =? 128) &&
      ((128 <=? byte c) && (byte c <=? 138)
       || (byte c =? 168) || (byte c =? 169) || (byte c =? 175))
   || (byte a =? 226) && (byte b =? 129) && (byte c =? 159)
   || (byte a =? 227) && (byte b =? 128) && (byte c =? 128)
   || (byte a =? 239) && (byte b =? 187) && (byte c =? 191))%N.

(** [s.trimStart()]: drop whitespace code points from the front. *)
Fixpoint trimStart (s : string) : string :=
  match s with
  | EmptyString => EmptyString
  | String a s1 =>
      if isWhiteSpace1 a then trimStart s1
      else match s1 with
           | EmptyString => s
           | String b s2 =>
               if isWhiteSpace2 a b then trimStart s2
               else match s2 with
                    | EmptyString => s
                    | String c s3 =>
                        if isWhiteSpace3 a b c then trimStart s3 else s
                    end
           end
  end.

(** The string consists of whitespace code points only (or is empty). *)
Fixpoint whitespaceOnly (s : string) : bool :=
  match s with
  | EmptyString => true
  | String a s1 =>
      if isWhiteSpace1 a then whitespaceOnly s1
      else match s1 with
           | EmptyString => false
           | String b s2 =>
               if isWhiteSpace2 a b then whitespaceOnly s2
               else match s2 with
                    | EmptyString => false
                    | String c s3 => isWhiteSpace3 a b c && whitespaceOnly s3
                    end
           end
  end.

(** [s.trimEnd()]: cut the string where only whitespace follows.  No
    whitespace encoding starts with a continuation byte, so the cut falls
    between two code points. *)
Fixpoint trimEnd (s : string) : string :=
  if whitespaceOnly s then EmptyString
  else match s with
       | EmptyString => EmptyString
       | String a s1 => String a (trimEnd s1)
       end.

Definition trim (s : string) : string := trimEnd (trimStart s).

(** Truthiness of a string: only the empty string is falsy. *)
Definition truthy (s : string) : bool :=
  match s with EmptyString => false | String _ _ => true end.

Fixpoint includes (hay needle : string) : bool :=
  String.prefix needle hay ||
  match hay with
  | EmptyString => false
  | String _ hay' => includes hay' needle
  end.

(** ** JSON bodies *)

#[warnings="-register-all"] Inductive json :=
| JNull
| JBool (b : bool)
| JNum (z : Z)
| JStr (s : string)
| JArr (items : list json)
| JObj (fields : list (string * json)).

(** ** The workspace page: socket lifecycle and sending *)

Inductive readyState := CONNECTING | OPEN | CLOSED.

(** The promise awaited by [connectWS]; settling a settled promise does
    nothing. *)
Inductive promise := Pending | Fulfilled | Rejected (e : js_error).

(** One [ProjectWebSocketService] instance [ws] together with the promise
    of the [connectWS] closure that created it.  [listener] records that
    [ws.addListener(handleSocketMessage)] has run. *)
Module Service.
Record t := mk {
  wsProjectId : string;
  ws : readyState;
  connecting : promise;
  listener : bool
}.
End Service.

(** What the user typed: [{content, images}]; [images] may be missing. *)
Module Draft.
Record t := mk { content : string; images : option (list string) }.
End Draft.

Module NewChat.
Record t := mk {
  name : string;
  description : string;
  stack_id : option string;
  project_id : option string;
  team_id : N
}.
End NewChat.

(** Calls the page makes on its collaborators, in program order. *)
Inductive call :=
| ws_new (h : nat) (wsProjectId : string)
| ws_connect (h : nat)
| ws_disconnect (h : nat)
| ws_addListener (h : nat)
| ws_sendMessage (h : nat) (chat : list Message.t)
| setTimeout_reject (h : nat) (ms : N)
| console_error (msg : string) (e : js_error)
| api_createChat (chat : NewChat.t)
| addChat (chat : json)
| setTimeout_push_workspace (chat : json) (ms : N).

Record page := Page {
  ui : model;
  webSocketRef : option nat;
  services : list Service.t;
  log : list call
}.

Definition initialPage : page := Page initialModel None [] [].

Definition render (f : model -> model) (p : page) : page :=
  Page (f (ui p)) (webSocketRef p) (services p) (log p).

Definition emit (c : call) (p : page) : page :=
  Page (ui p) (webSocketRef p) (services p) (log p ++ [c]).

Definition setRef (h : nat) (p : page) : page :=
  Page (ui p) (Some h) (services p) (log p).

Definition onService (h : nat) (f : Service.t -> Service.t) (p : page) : page :=
  Page (ui p) (webSocketRef p) (alter f h (services p)) (log p).

(** Modelled from the spec: [ProjectWebSocketService.connect] (the module
    lib/project-websocket is not among the sources).  Section 4.1:
    "connect() establishes a socket to a session-scoped endpoint". *)
Definition svc_connect (s : Service.t) : Service.t :=
  Service.mk (Service.wsProjectId s) CONNECTING (Service.connecting s) (Service.listener s).

(** Modelled from the spec: [ProjectWebSocketService.disconnect] (missing).
    Section 4.1: "disconnect() closes the transport; idempotent". *)
Definition svc_disconnect (s : Service.t) : Service.t :=
  Service.mk (Service.wsProjectId s) CLOSED (Service.connecting s) (Service.listener s).

(** Modelled from the spec: [ProjectWebSocketService.addListener] (missing).
    Section 4.1: the callback becomes the handle's message listener. *)
Definition svc_addListener (s : Service.t) : Service.t :=
  Service.mk (Service.wsProjectId s) (Service.ws s) (Service.connecting s) true.

(** Modelled from the spec: the socket behind the missing service when the
    transport reports open; a connecting socket becomes open. *)
Definition svc_opened (s : Service.t) : Service.t :=
  match Service.ws s with
  | CONNECTING => Service.mk (Service.wsProjectId s) OPEN (Service.connecting s) (Service.listener s)
  | _ => s
  end.

(** Modelled from the spec: the socket behind the missing service when the
    transport reports close, whichever side closed it.  An error report
    changes no socket by itself; the close report that follows it does. *)
Definition svc_closed (s : Service.t) : Service.t := svc_disconnect s.

Definition settle (r : promise) (s : Service.t) : Service.t :=
  Service.mk (Service.wsProjectId s) (Service.ws s) r (Service.listener s).

Definition isLive (s : Service.t) : bool :=
  match Service.ws s with CLOSED => false | _ => true end.

Definition liveAt (p : page) (h : nat) : bool :=
  match services p !! h with
  | Some s => isLive s
  | None => false
  end.

(** The handles whose transport is not closed. *)
Definition liveHandles (p : page) : list nat :=
  List.filter (liveAt p) (seq 0 (length (services p))).

Definition isPending (h : nat) (p : page) : bool :=
  match services p !! h with
  | Some s => match Service.connecting s with Pending => true | _ => false end
  | None => false
  end.

(** [initializeWebSocket(wsProjectId)] up to the [await] inside [connectWS]:
    the guarded disconnect of [webSocketRef.current], the new service (which
    has no socket until [connect()] is called on it), its [connect()], and
    the 5000 ms timer.  The three socket callbacks it installs are
    [onopen], [onerror] and [onclose] below. *)
Definition initializeWebSocket (wsProjectId : string) (p : page) : page :=
  let p1 := match webSocketRef p with
            | Some cur => emit (ws_disconnect cur) (onService cur svc_disconnect p)
            | None => p
            end in
  let h := length (services p1) in
  let p2 := emit (ws_new h wsProjectId)
              (Page (ui p1) (webSocketRef p1)
                    (services p1 ++ [Service.mk wsProjectId CLOSED Pending false])
                    (log p1)) in
  let p3 := emit (ws_connect h) (onService h svc_connect p2) in
  emit (setTimeout_reject h 5000) p3.

(** The code after the [await], run when the promise is fulfilled. *)
Definition connected (h : nat) (p : page) : page :=
  let p1 := render (setStatus SettingUp) p in
  let p2 := emit (ws_addListener h) (onService h svc_addListener p1) in
  setRef h p2.

(** The [catch] block, run when the promise is rejected. *)
Definition connectFailed (e : js_error) (p : page) : page :=
  render (setStatus Disconnected)
         (emit (console_error "WebSocket connection failed:" e) p).

Definition onopen (h : nat) (p : page) : page :=
  if isPending h p then connected h (onService h (settle Fulfilled) p) else p.

Definition reject (h : nat) (e : js_error) (p : page) : page :=
  if isPending h p then connectFailed e (onService h (settle (Rejected e)) p) else p.

Definition onerror (h : nat) (p : page) : page := reject h (ErrorEvent h) p.

Definition ontimeout (h : nat) (p : page) : page :=
  reject h (Error "WebSocket connection timeout") p.

Definition onclose (h : nat) (p : page) : page :=
  match services p !! h with
  | Some _ => render (setProjectPreviewUrl None) (render (setStatus Disconnected) p)
  | None => p
  end.

(** A decoded frame arriving on handle [h]: the service hands it to the
    listener registered by [ws.addListener(handleSocketMessage)], if any. *)
Definition onmessage (h : nat) (data : Data.t) (p : page) : page :=
  match services p !! h with
  | Some s => if Service.listener s
              then render (fun m => fst (handleSocketMessage data m)) p
              else p
  | None => p
  end.

(** What the page's surroundings supply to one [handleSendMessage] call:
    the [chatId] prop, [team] from the user context, the date used in the
    description, and the completions of the two awaited/foreign calls. *)
Record env := Env {
  chatId : string;
  team : option N;
  today : string;
  createChat_result : completion json;
  sendMessage_result : completion unit
}.

(** [handleSendMessage(message)].  The [await] of [api.createChat] and the
    code after it are taken as one step; [messages] in the closure is the
    transcript of the current render. *)
Definition handleSendMessage (e : env) (message : Draft.t) (p : page)
  : page * completion unit :=
  let continue :=
    let userMessage :=
      Message.mk "user" (Draft.content message)
                 (Some (default [] (Draft.images message))) in
    let p1 := render (setMessages (fun prev => prev ++ [userMessage]))
                     (render (setRespStreaming true) p) in
    if String.eqb (chatId e) "new" then
      match team e with
      | None => (p1, Throw (TypeError "Cannot read properties of null (reading 'id')"))
      | Some teamId =>
          let p2 := emit (api_createChat
                            (NewChat.mk (Draft.content message)
                                        ("Chat session started on " +:+ today e)
                                        (projectStackPackId (ui p))
                                        (projectId (ui p))
                                        teamId)) p1 in
          match createChat_result e with
          | Throw err => (p2, Throw err)
          | Normal chat =>
              (emit (setTimeout_push_workspace chat 100) (emit (addChat chat) p2),
               Normal tt)
          end
      end
    else
      match webSocketRef p with
      | None => (p1, Throw (TypeError "Cannot read properties of null (reading 'sendMessage')"))
      | Some h => (emit (ws_sendMessage h (messages (ui p) ++ [userMessage])) p1,
                   sendMessage_result e)
      end in
  if truthy (trim (Draft.content message)) then continue
  else match Draft.images message with
       | None => (p, Throw (TypeError "Cannot read properties of undefined (reading 'length')"))
       | Some imgs => if Nat.eqb (length imgs) 0 then (p, Normal tt) else continue
       end.

(** ** The event loop: one task at a time *)

Inductive task :=
| CallInitializeWebSocket (wsProjectId : string)
| SocketOpen (h : nat)
| SocketError (h : nat)
| SocketClose (h : nat)
| TimerFired (h : nat)
| Frame (h : nat) (data : Data.t)
| CallHandleSendMessage (e : env) (message : Draft.t).

Definition step (p : page) (t : task) : page :=
  match t with
  | CallInitializeWebSocket id => initializeWebSocket id p
  | SocketOpen h => onopen h (onService h svc_opened p)
  | SocketError h => onerror h p
  | SocketClose h => onclose h (onService h svc_closed p)
  | TimerFired h => ontimeout h p
  | Frame h data => onmessage h data p
  | CallHandleSendMessage e message => fst (handleSendMessage e message p)
  end.

Definition run (ts : list task) (p : page) : page := foldl step p ts.

(** ** The REST client ([ApiClient]) *)

(** [String(v)] for a value read out of a JSON body; [None] is
    [undefined].  Numbers are the integers. *)
Fixpoint toString (j : json) : string :=
  match j with
  | JNull => "null"
  | JBool true => "true"
  | JBool false => "false"
  | JNum z => pretty z
  | JStr s => s
  | JArr items =>
      String.concat ","
        (map (fun x => match x with JNull => "" | _ => toString x end) items)
  | JObj _ => "[object Object]"
  end.

Fixpoint assoc (k : string) (fields : list (string * json)) : option json :=
  match fields with
  | [] => None
  | (k', v) :: rest => if String.eqb k k' then Some v else assoc k rest
  end.

(** [data.k]: reading a property of [null] throws; the only own properties
    modelled are the fields of an object. *)
Definition getProp (k : string) (data : json) : completion (option json) :=
  match data with
  | JNull => Throw (TypeError ("Cannot read properties of null (reading '" +:+ k +:+ "')"))
  | JObj fields => Normal (assoc k fields)
  | _ => Normal None
  end.

(** [error.message]; the event object of a socket error has none. *)
Definition message (e : js_error) : option string :=
  match e with
  | TypeError msg | Error msg | SyntaxError msg => Some msg
  | ErrorEvent _ => None
  end.

Module Api.

Record request := Request {
  method : string;
  endpoint : string;
  contentType : option string;
  authorization : string;
  body : option json
}.

Record response := Response {
  status : N;
  statusText : string;
  json_ : completion json      (* what [res.json()] settles to *)
}.

(** What [fetch] settles to. *)
Inductive fetched :=
| Rejects (e : js_error)
| Responds (res : response).

(** [res.ok]: the status is in the range 200-299. *)
Definition ok (res : response) : bool :=
  ((200 <=? status res) && (status res <=? 299))%N.

(** The browser as the client sees it: the [token] entry of
    [localStorage], the number of [window.location.reload()] calls, and
    the requests handed to [fetch]. *)
Record browser := Browser {
  token : option string;
  reloads : nat;
  requests : list request
}.

Definition bearer (b : browser) : string :=
  "Bearer " +:+ default "null" (token b).

Definition fetch (rq : request) (b : browser) : browser :=
  Browser (token b) (reloads b) (requests b ++ [rq]).

Definition setToken (v : string) (b : browser) : browser :=
  Browser (Some v) (reloads b) (requests b).

Definition removeToken (b : browser) : browser :=
  Browser None (reloads b) (requests b).

Definition reload (b : browser) : browser :=
  Browser (token b) (S (reloads b)) (requests b).

(** The part the four request helpers share after [fetch] has settled. *)
Definition settle (reply : fetched) : completion json :=
  match reply with
  | Rejects e => Throw e
  | Responds res =>
      if ok res then json_ res
      else Throw (Error ("API error: " +:+ statusText res))
  end.

Definition _post (endpoint : string) (data : json) (reply : fetched) (b : browser)
  : browser * completion json :=
  (fetch (Request "POST" endpoint (Some "application/json") (bearer b) (Some data)) b,
   settle reply).

Definition _get (endpoint : string) (reply : fetched) (b : browser)
  : browser * completion json :=
  (fetch (Request "GET" endpoint None (bearer b) None) b, settle reply).

Definition _delete (endpoint : string) (reply : fetched) (b : browser)
  : browser * completion json :=
  (fetch (Request "DELETE" endpoint None (bearer b) None) b, settle reply).

Definition _patch (endpoint : string) (data : json) (reply : fetched) (b : browser)
  : browser * completion json :=
  (fetch (Request "PATCH" endpoint (Some "application/json") (bearer b) (Some data)) b,
   settle reply).

Definition createAccount (username : json) (reply : fetched) (b : browser)
  : browser * completion (option json) :=
  match _post "/api/auth/create" (JObj [("username", username)]) reply b with
  | (b1, Throw e) => (b1, Throw e)
  | (b1, Normal data) =>
      match getProp "token" data with
      | Throw e => (b1, Throw e)
      | Normal tok =>
          let b2 := setToken (from_option toString "undefined" tok) b1 in
          (b2, getProp "user" data)
      end
  end.

Definition getCurrentUser (reply : fetched) (b : browser) : browser * completion json :=
  match _get "/api/auth/me" reply b with
  | (b1, Normal user) => (b1, Normal user)
  | (b1, Throw error) =>
      match message error with
      | None => (b1, Throw (TypeError "Cannot read properties of undefined (reading 'includes')"))
      | Some msg =>
          if includes msg "401" || includes msg "Unauthorized"
          then (reload (removeToken b1), Throw error)
          else (b1, Throw error)
      end
  end.

Definition getTeams := _get "/api/teams".
Definition getChats := _get "/api/chats".
Definition createChat (chat : json) := _post "/api/chats" chat.
Definition getChat (chatId : string) := _get ("/api/chats/" +:+ chatId).
Definition updateChat (chatId : string) (chat : json) :=
  _patch ("/api/chats/" +:+ chatId) chat.
Definition getTeamProjects (teamId : string) :=
  _get ("/api/teams/" +:+ teamId +:+ "/projects").
Definition getProject (teamId projectId : string) :=
  _get ("/api/teams/" +:+ teamId +:+ "/projects/" +:+ projectId).
Definition getProjectFile (teamId projectId filePath : string) :=
  _get ("/api/teams/" +:+ teamId +:+ "/projects/" +:+ projectId +:+ "/file/" +:+ filePath).
Definition getStackPacks := _get "/api/stacks".
Definition deleteChat (chatId : string) := _delete ("/api/chats/" +:+ chatId).

(** One value per public method, to quantify over "every request". *)
Inductive op :=
| CreateAccount (username : json)
| GetCurrentUser
| GetTeams
| GetChats
| CreateChat (chat : json)
| GetChat (chatId : string)
| UpdateChat (chatId : string) (chat : json)
| GetTeamProjects (teamId : string)
| GetProject (teamId projectId : string)
| GetProjectFile (teamId projectId filePath : string)
| GetStackPacks
| DeleteChat (chatId : string).

Definition some {A} (r : browser * completion A) : browser * completion (option A) :=
  (fst r, match snd r with Normal a => Normal (Some a) | Throw e => Throw e end).

Definition perform (o : op) (reply : fetched) (b : browser)
  : browser * completion (option json) :=
  match o with
  | CreateAccount username => createAccount username reply b
  | GetCurrentUser => some (getCurrentUser reply b)
  | GetTeams => some (getTeams reply b)
  | GetChats => some (getChats reply b)
  | CreateChat chat => some (createChat chat reply b)
  | GetChat chatId => some (getChat chatId reply b)
  | UpdateChat chatId chat => some (updateChat chatId chat reply b)
  | GetTeamProjects teamId => some (getTeamProjects teamId reply b)
  | GetProject teamId projectId => some (getProject teamId projectId reply b)
  | GetProjectFile teamId projectId filePath =>
      some (getProjectFile teamId projectId filePath reply b)
  | GetStackPacks => some (getStackPacks reply b)
  | DeleteChat chatId => some (deleteChat chatId reply b)
  end.

End Api.

(** The earlier client in frontend/src/lib/api.js: the same [_get] and
    [_post], and a [getCurrentUser] without a [catch]. *)
Module ApiV0.
Definition getCurrentUser := Api._get "/api/auth/me".
Definition getUserProjects := Api._get "/api/projects".
Definition getProject (projectId : string) := Api._get ("/api/projects/" +:+ projectId).
Definition createProject (project : json) := Api._post "/api/projects" project.
End ApiV0.

(** ** Vocabulary of the properties *)

Definition isChatChunk (data : Data.t) : bool :=
  String.eqb (Data.for_type data) "chat_chunk".

Definition isSandboxStatus (data : Data.t) : bool :=
  String.eqb (Data.for_type data) "sandbox_status".

Definition isSandboxFileTree (data : Data.t) : bool :=
  String.eqb (Data.for_type data) "sandbox_file_tree".

(** The frames of one assistant turn: [chat_chunk] frames, all with
    [complete = false] except the last, which has [complete = true]. *)
Fixpoint streamedTurn (chunks : list Data.t) : bool :=
  match chunks with
  | [] => false
  | data :: rest =>
      isChatChunk data &&
      match rest with
      | [] => Data.complete data
      | _ :: _ => negb (Data.complete data) && streamedTurn rest
      end
  end.

Definition lastIsAssistant (transcript : list Message.t) : bool :=
  match last transcript with
  | Some m => String.eqb (Message.role m) "assistant"
  | None => false
  end.

(** The contents of the frames, concatenated in arrival order. *)
Definition concatContents (chunks : list Data.t) : string :=
  foldr String.append "" (map Data.content chunks).

(** A [sandbox_status] frame with [status = READY] whose [tunnels] object
    maps port 3000 to [url]. *)
Definition readyWith (url : string) (data : Data.t) : bool :=
  isSandboxStatus data && String.eqb (Data.status data) "READY" &&
  match Data.tunnels data with
  | Some t => bool_decide (t !! 3000%N = Some url)
  | None => false
  end.

Definition isSend (c : call) : bool :=
  match c with ws_sendMessage _ _ => true | _ => false end.

Definition isRest (c : call) : bool :=
  match c with api_createChat _ => true | _ => false end.

(** The handle's callbacks exist once [initializeWebSocket] has created it. *)
Definition known (h : nat) (p : page) : bool :=
  bool_decide (h < length (services p)).

(** ** Sample frames, drafts and sessions *)

Definition chunk (content : string) (complete : bool) : Data.t :=
  Data.mk "chat_chunk" "" None content complete None [].

Definition chunkWithFollowUps (content : string) (l : list string) : Data.t :=
  Data.mk "chat_chunk" "" None content true (Some l) [].

Definition ready (url : string) : Data.t :=
  Data.mk "sandbox_status" "READY" (Some {[3000%N := url]}) "" false None [].

Definition pong : Data.t := Data.mk "pong" "" None "" false None [].

Definition userSays (content : string) : Message.t :=
  Message.mk "user" content (Some []).

Definition existingChat : env :=
  Env "42" (Some 7%N) "11/3/2026" (Normal JNull) (Normal tt).

Definition hello : Draft.t := Draft.mk "hello" (Some []).

(** The string with the given bytes. *)
Definition bytes (l : list nat) : string :=
  String.string_of_list_ascii (map ascii_of_nat l).

(** A space, a tab, a line feed, U+00A0, U+2028, U+3000 and U+FEFF. *)
Definition blankContent : string :=
  bytes [32; 9; 10; 194; 160; 226; 128; 168; 227; 128; 128; 239; 187; 191].

Definition blank : Draft.t := Draft.mk blankContent (Some []).

(** A session that became ready with a preview URL. *)
Definition readySession : page :=
  run [CallInitializeWebSocket "p1"; SocketOpen 0; Frame 0 (ready "https://x.test")]
      initialPage.

(** The same session after its socket closed. *)
Definition closedSession : page := step readySession (SocketClose 0).

(** Two calls of [initializeWebSocket] in succession, both sockets then
    report open. *)
Definition overlappingOpens : page :=
  run [CallInitializeWebSocket "p1"; CallInitializeWebSocket "p2";
       SocketOpen 0; SocketOpen 1] initialPage.

(** A connect that times out, whose socket opens after the deadline,
    followed by a second call that connects. *)
Definition lateOpen : page :=
  run [CallInitializeWebSocket "p1"; TimerFired 0; SocketOpen 0;
       CallInitializeWebSocket "p2"; SocketOpen 1] initialPage.

Definition unauthorized : Api.response :=
  Api.Response 401 "Unauthorized" (Normal JNull).

Definition loggedIn : Api.browser := Api.Browser (Some "t0k3n") 0 [].

(** A message that passes the guard at the top of [handleSendMessage]:
    its trimmed content is non-empty or it carries an image. *)
Definition sendable (message : Draft.t) : bool :=
  truthy (trim (Draft.content message)) ||
  match Draft.images message with
  | Some (_ :: _) => true
  | _ => false
  end.

Definition connectingOf (h : nat) (p : page) : option promise :=
  Service.connecting <$> services p !! h.

Definition listenerOf (h : nat) (p : page) : option bool :=
  Service.listener <$> services p !! h.

Definition isConnect (c : call) : bool :=
  match c with ws_connect _ => true | _ => false end.

(** A session whose connect is still pending, with a preview URL left from
    before. *)
Definition pendingSession : page :=
  render (setProjectPreviewUrl (Some "https://old.test"))
         (initializeWebSocket "p1" initialPage).

(** A socket-level failure as the page receives it: the error event, then
    the close event a WebSocket always dispatches after an error. *)
Definition transportFailure (h : nat) : list task :=
  [SocketError h; SocketClose h].

Definition isDisconnect (c : call) : bool :=
  match c with ws_disconnect _ => true | _ => false end.

(** ** More of the workspace page *)

Definition setProjectId (v : option string) (m : model) : model :=
  Model v (isPreviewOpen m) (messages m) (respStreaming m)
        (chatTitle m) (projectPreviewUrl m) (projectFileTree m)
        (projectStackPackId m) (suggestedFollowUps m) (previewHash m) (status m).

Definition setProjectStackPackId (v : option string) (m : model) : model :=
  Model (projectId m) (isPreviewOpen m) (messages m) (respStreaming m)
        (chatTitle m) (projectPreviewUrl m) (projectFileTree m)
        v (suggestedFollowUps m) (previewHash m) (status m).

Definition handleStackPackSelect (stackPackId : option string) (m : model) : model :=
  setProjectStackPackId stackPackId m.

Definition handleProjectSelect (projectId : option string) (m : model) : model :=
  setProjectId projectId m.

(** The [projectPreviewUrl] prop handed to [Preview]:
    [projectPreviewUrl ? `${projectPreviewUrl}?v=${previewHash}` : null].
    An empty URL is falsy; the counter, an integer, prints in decimal. *)
Definition previewSrc (m : model) : option string :=
  match projectPreviewUrl m with
  | Some url => if truthy url
                then Some (url +:+ "?v=" +:+ pretty (previewHash m))
                else None
  | None => None
  end.

(** The [connected] prop handed to [Chat]: [!!webSocketRef.current]. *)
Definition connectedProp (p : page) : bool :=
  match webSocketRef p with Some _ => true | None => false end.

(** ** Vocabulary for sequences of frames *)

(** A [chat_chunk] frame that ends a turn. *)
Definition completes (data : Data.t) : bool :=
  isChatChunk data && Data.complete data.

(** A [sandbox_status] frame whose status the handler acts on. *)
Definition isReady (data : Data.t) : bool :=
  isSandboxStatus data && String.eqb (Data.status data) "READY".

Definition isBuilding (data : Data.t) : bool :=
  isSandboxStatus data && negb (String.eqb (Data.status data) "READY") &&
  String.eqb (Data.status data) "BUILDING".

(** A READY frame that reaches [setProjectPreviewUrl]: it has a [tunnels]
    object. *)
Definition writesPreviewUrl (data : Data.t) : bool :=
  isReady data &&
  match Data.tunnels data with Some _ => true | None => false end.

Definition tunnel3000 (data : Data.t) : option string :=
  match Data.tunnels data with Some t => t !! 3000%N | None => None end.

(** The last frame of a sequence that satisfies [f], if any. *)
Definition lastWhere (f : Data.t -> bool) (frames : list Data.t) : option Data.t :=
  last (List.filter f frames).

Definition badgeOf (data : Data.t) : Badge.t :=
  if String.eqb (Data.status data) "READY" then Ready else SettingUp.

(** An entry of the transcript that no inbound frame may rewrite: it is
    not the last entry, or it is not an assistant entry. *)
Definition settledEntry (transcript : list Message.t) (i : nat) : bool :=
  match transcript !! i with
  | Some entry =>
      Nat.ltb (S i) (length transcript) || negb (String.eqb (Message.role entry) "assistant")
  | None => false
  end.

Definition sandboxFileTree (paths : list string) : Data.t :=
  Data.mk "sandbox_file_tree" "" None "" false None paths.

Definition building : Data.t :=
  Data.mk "sandbox_status" "BUILDING" None "" false None [].

Definition readyWithoutTunnels : Data.t :=
  Data.mk "sandbox_status" "READY" None "" false None [].

Definition newChat : env :=
  Env "new" (Some 7%N) "11/3/2026" (Throw (Error "API error: Bad Gateway")) (Normal tt).

Definition imageOnly : Draft.t := Draft.mk "  " (Some ["img-1"]).

(** ** Vocabulary for the connection bookkeeping *)

Definition isFulfilled (h : nat) (p : page) : bool :=
  match services p !! h with
  | Some s => match Service.connecting s with Fulfilled => true | _ => false end
  | None => false
  end.

Definition isListening (h : nat) (p : page) : bool :=
  match services p !! h with
  | Some s => Service.listener s
  | None => false
  end.

(** How often [ws.addListener] was called on handle [h]. *)
Definition listenerCalls (h : nat) (l : list call) : nat :=
  length (List.filter (fun c => match c with
                                | ws_addListener h' => Nat.eqb h h'
                                | _ => false
                                end) l).

(** How often [ws.connect()] was called on handle [h]. *)
Definition connectCalls (h : nat) (l : list call) : nat :=
  length (List.filter (fun c => match c with
                                | ws_connect h' => Nat.eqb h h'
                                | _ => false
                                end) l).

(** The listener of a service is registered exactly when its connect
    promise is fulfilled. *)
Definition coherentService (s : Service.t) : bool :=
  Bool.eqb (Service.listener s)
           (match Service.connecting s with Fulfilled => true | _ => false end).

(** The bookkeeping every task of the page preserves. *)
Definition coherent (p : page) : Prop :=
  (forall h s, services p !! h = Some s -> coherentService s = true) /\
  (forall h, webSocketRef p = Some h -> isFulfilled h p = true) /\
  (forall h, listenerCalls h (log p) = if isListening h p then 1 else 0) /\
  (forall h, connectCalls h (log p) = if known h p then 1 else 0).

(** A call that is neither [addListener] nor [connect]. *)
Definition quiet (c : call) : Prop :=
  match c with ws_addListener _ | ws_connect _ => False | _ => True end.

Definition isBadge (b : Badge.t) : bool :=
  let same (x y : Badge.t) :=
    String.eqb (Badge.status x) (Badge.status y) &&
    String.eqb (Badge.color x) (Badge.color y) in
  same b Disconnected || same b SettingUp || same b Ready.

(** A run that opens a session, loses it, sends, and opens another. *)
Definition busyDay : list task :=
  [CallInitializeWebSocket "p1"; SocketOpen 0; Frame 0 (ready "https://x.test");
   CallHandleSendMessage existingChat hello; Frame 0 (chunk "ok" true);
   SocketError 0; SocketClose 0; CallInitializeWebSocket "p2"; TimerFired 1;
   SocketOpen 1; SocketOpen 0].

(** ** Vocabulary for the REST client *)

Definition isCreateAccount (o : Api.op) : bool :=
  match o with Api.CreateAccount _ => true | _ => false end.

(** The request a call added to the browser's list, if it added one. *)
Definition sent (before after : Api.browser) : option Api.request :=
  match drop (length (Api.requests before)) (Api.requests after) with
  | [rq] => Some rq
  | _ => None
  end.

(** A run of later calls, each a method with what [fetch] answers it. *)
Definition performAll (calls : list (Api.op * Api.fetched)) (b : Api.browser)
  : Api.browser :=
  foldl (fun acc call => fst (Api.perform (fst call) (snd call) acc)) b calls.

(** The two methods that write the stored token. *)
Definition writesToken (o : Api.op) : bool :=
  match o with
  | Api.CreateAccount _ | Api.GetCurrentUser => true
  | _ => false
  end.

(** The requests handed to [fetch] between two states of the browser. *)
Definition sentSince (before after : Api.browser) : list Api.request :=
  drop (length (Api.requests before)) (Api.requests after).

Definition laterCalls : list (Api.op * Api.fetched) :=
  [(Api.GetChats, Api.Rejects (TypeError "Failed to fetch"));
   (Api.GetTeams, Api.Responds (Api.Response 500 "Internal Server Error" (Normal JNull)));
   (Api.DeleteChat "7", Api.Responds (Api.Response 200 "OK" (Normal JNull)))].

Definition signedUp (tok : string) : Api.response :=
  Api.Response 200 "OK"
    (Normal (JObj [("token", JStr tok); ("user", JObj [("username", JStr "ada")])])).

Definition signedUpWithoutToken : Api.response :=
  Api.Response 200 "OK" (Normal (JObj [("user", JObj [("username", JStr "ada")])])).

Definition anonymous : Api.browser := Api.Browser None 0 [].

(** ** The sidebar ([Sidebar]) *)

(** [Array.prototype.sort(cmp)] for a comparator that returns integers.
    The sort is stable; [insertBy] puts an element, which came before all
    of [sorted] in the array, in front of the first element it does not
    have to follow. *)
Fixpoint insertBy {A} (cmp : A -> A -> Z) (x : A) (sorted : list A) : list A :=
  match sorted with
  | [] => [x]
  | y :: rest => if (cmp x y <=? 0)%Z then x :: y :: rest
                 else y :: insertBy cmp x rest
  end.

Definition sortBy {A} (cmp : A -> A -> Z) (l : list A) : list A :=
  foldr (insertBy cmp) [] l.

(** The comparator lets [a] stand before [b]. *)
Definition mayPrecede {A} (cmp : A -> A -> Z) (a b : A) : Prop :=
  (cmp a b <= 0)%Z.

Module Sidebar.

(** A chat as the sidebar reads it: [id], [name], and [project?.name]
    ([None] when the chat has no project or the project no name). *)
Record chat := Chat { id : Z; name : string; project : option string }.

Inductive call :=
| stopPropagation
| preventDefault
| confirm (question : string)
| router_push (path : string)
| api_updateChat (chatId : Z) (name : string)
| api_deleteChat (chatId : Z)
| refreshChats
| console_error (msg : string) (e : js_error).

(** The component's two [useState] cells for renaming, the mobile flag,
    and the calls made so far. *)
Record state := State {
  isMobileOpen : bool;
  editingChatId : option Z;
  editingName : string;
  log : list call
}.

Definition initial : state := State false None "" [].

Definition emit (c : call) (s : state) : state :=
  State (isMobileOpen s) (editingChatId s) (editingName s) (log s ++ [c]).

Definition setIsMobileOpen (b : bool) (s : state) : state :=
  State b (editingChatId s) (editingName s) (log s).

Definition setEditingChatId (v : option Z) (s : state) : state :=
  State (isMobileOpen s) v (editingName s) (log s).

Definition setEditingName (v : string) (s : state) : state :=
  State (isMobileOpen s) (editingChatId s) v (log s).

(** What surrounds one handler call: [chats] from the user context, the
    answer to [confirm], [window.location.pathname], and how the awaited
    calls settle. *)
Record world := World {
  chats : list chat;
  confirmed : bool;
  pathname : string;
  updateChat_result : completion json;
  deleteChat_result : completion json;
  refreshChats_result : completion unit
}.

Definition chatPath (chatId : Z) : string := "/chats/" +:+ pretty chatId.

Definition handleChatClick (chatId : Z) (s : state) : state :=
  setIsMobileOpen false (emit (router_push (chatPath chatId)) s).

Definition handleNewChat (s : state) : state :=
  setIsMobileOpen false (emit (router_push "/chats/new") s).

Definition handleRename (w : world) (chatId : Z) (s : state)
  : state * completion unit :=
  let s1 := setEditingChatId (Some chatId) (emit stopPropagation s) in
  match List.find (fun c => Z.eqb (id c) chatId) (chats w) with
  | Some c => (setEditingName (name c) s1, Normal tt)
  | None => (s1, Throw (TypeError "Cannot read properties of undefined (reading 'name')"))
  end.

Definition handleRenameSubmit (w : world) (chatId : Z) (s : state) : state :=
  let s1 := emit stopPropagation (emit preventDefault s) in
  if truthy (trim (editingName s)) then
    let s2 := emit (api_updateChat chatId (trim (editingName s))) s1 in
    match updateChat_result w with
    | Throw e => emit (console_error "Failed to rename chat:" e) s2
    | Normal _ =>
        let s3 := emit refreshChats s2 in
        match refreshChats_result w with
        | Throw e => emit (console_error "Failed to rename chat:" e) s3
        | Normal _ => setEditingChatId None s3
        end
    end
  else s1.

Definition handleDelete (w : world) (chatId : Z) (s : state) : state :=
  let s1 := emit (confirm "Are you sure you want to delete this chat?")
                 (emit stopPropagation s) in
  if confirmed w then
    let s2 := emit (api_deleteChat chatId) s1 in
    match deleteChat_result w with
    | Throw e => emit (console_error "Failed to delete chat:" e) s2
    | Normal _ =>
        let s3 := emit refreshChats s2 in
        match refreshChats_result w with
        | Throw e => emit (console_error "Failed to delete chat:" e) s3
        | Normal _ =>
            if includes (pathname w) (chatPath chatId)
            then emit (router_push "/chats/new") s3
            else s3
        end
    end
  else s1.

(** *** Grouping the chats by project *)

(** [chat.project?.name || 'No Project']. *)
Definition projectName (c : chat) : string :=
  match project c with
  | Some n => if truthy n then n else "No Project"
  | None => "No Project"
  end.

(** The property names an object literal inherits from
    [Object.prototype]; reading any of them from [{}] gives a truthy value
    that is not an array. *)
Definition inheritedKeys : list string :=
  ["constructor"; "__defineGetter__"; "__defineSetter__"; "hasOwnProperty";
   "__lookupGetter__"; "__lookupSetter__"; "isPrototypeOf";
   "propertyIsEnumerable"; "toString"; "valueOf"; "__proto__"; "toLocaleString"].

Definition inherited (k : string) : bool :=
  existsb (String.eqb k) inheritedKeys.

(** The accumulator [acc] is the list of its own properties, in order of
    creation. *)
Fixpoint own (k : string) (acc : list (string * list chat)) : option (list chat) :=
  match acc with
  | [] => None
  | (k', cs) :: rest => if String.eqb k k' then Some cs else own k rest
  end.

Fixpoint push (k : string) (c : chat) (acc : list (string * list chat))
  : list (string * list chat) :=
  match acc with
  | [] => []
  | (k', cs) :: rest => if String.eqb k k' then (k', cs ++ [c]) :: rest
                        else (k', cs) :: push k c rest
  end.

(** The reducer: [if (!acc[projectName]) acc[projectName] = [];
    acc[projectName].push(chat)]. *)
Definition reducer (acc : list (string * list chat)) (c : chat)
  : completion (list (string * list chat)) :=
  let k := projectName c in
  match own k acc with
  | Some _ => Normal (push k c acc)
  | None => if inherited k
            then Throw (TypeError "acc[projectName].push is not a function")
            else Normal (acc ++ [(k, [c])])
  end.

Fixpoint reduce (cs : list chat) (acc : list (string * list chat))
  : completion (list (string * list chat)) :=
  match cs with
  | [] => Normal acc
  | c :: rest => match reducer acc c with
                 | Normal acc' => reduce rest acc'
                 | Throw e => Throw e
                 end
  end.

Definition digit (c : ascii) : option N :=
  let n := Ascii.N_of_ascii c in
  if ((48 <=? n) && (n <=? 57))%N then Some (n - 48)%N else None.

Fixpoint digits (s : string) (acc : N) : option N :=
  match s with
  | EmptyString => Some acc
  | String c s' => match digit c with
                   | Some d => digits s' (10 * acc + d)%N
                   | None => None
                   end
  end.

(** A property name that is an array index: the canonical decimal form
    of an integer below 2^32 - 1. *)
Definition arrayIndex (k : string) : option N :=
  match k with
  | EmptyString => None
  | _ => match digits k 0 with
         | Some n => if String.eqb (pretty n) k && (n <? 4294967295)%N
                     then Some n else None
         | None => None
         end
  end.

Definition isIndex (e : string * list chat) : bool :=
  match arrayIndex (fst e) with Some _ => true | None => false end.

Definition indexOf (e : string * list chat) : Z :=
  match arrayIndex (fst e) with Some n => Z.of_N n | None => 0 end.

(** [Object.entries(acc)]: array-index names in ascending numeric order,
    then the other names in order of creation. *)
Definition entries (acc : list (string * list chat)) : list (string * list chat) :=
  sortBy (fun a b => indexOf a - indexOf b)%Z (List.filter isIndex acc)
  ++ List.filter (fun e => negb (isIndex e)) acc.

(** [Math.max(...chats.map(chat => chat.id))] of a group (groups are never
    empty; the value for the empty list is not used). *)
Definition maxId (cs : list chat) : Z :=
  match cs with
  | [] => 0
  | c :: rest => foldl Z.max (id c) (map id rest)
  end.

Definition byIdDescending (a b : chat) : Z := (id b - id a)%Z.

Definition byMaxIdDescending (a b : string * list chat) : Z :=
  (maxId (snd b) - maxId (snd a))%Z.

(** The list the sidebar renders: one entry per project name with its
    chats. *)
Definition grouped (cs : list chat) : completion (list (string * list chat)) :=
  match reduce (sortBy byIdDescending cs) [] with
  | Normal acc => Normal (sortBy byMaxIdDescending (entries acc))
  | Throw e => Throw e
  end.

Definition sampleChats : list chat :=
  [Chat 1 "first" (Some "alpha"); Chat 2 "second" None;
   Chat 12 "third" (Some "alpha"); Chat 7 "fourth" (Some "2024");
   Chat 5 "fifth" (Some "")].

Definition quietWorld : world :=
  World sampleChats true "/chats/12" (Normal JNull) (Normal JNull) (Normal tt).

End Sidebar.

(** ** Vocabulary for the sidebar's grouping *)

Definition sameProject (k : string) (c : Sidebar.chat) : bool :=
  String.eqb (Sidebar.projectName c) k.

(** The chats of project [k] among [cs], in the order of [cs]. *)
Definition chatsOf (k : string) (cs : list Sidebar.chat) : list Sidebar.chat :=
  List.filter (sameProject k) cs.

Definition hasInheritedName (c : Sidebar.chat) : bool :=
  Sidebar.inherited (Sidebar.projectName c).

(** [a] is at least as new as [b]. *)
Definition newerFirst (a b : Sidebar.chat) : Prop :=
  (Sidebar.id b <= Sidebar.id a)%Z.

Definition newestProjectFirst (a b : string * list Sidebar.chat) : Prop :=
  (Sidebar.maxId (snd b) <= Sidebar.maxId (snd a))%Z.

(** The accumulator holds, for every project name, the chats of that
    project among the chats reduced so far, and no empty group. *)
Definition groupsOf (processed : list Sidebar.chat)
           (acc : list (string * list Sidebar.chat)) : Prop :=
  forall k, Sidebar.own k acc
            = match chatsOf k processed with
              | [] => None
              | g => Some g
              end.

Definition failingWorld : Sidebar.world :=
  Sidebar.World Sidebar.sampleChats true "/chats/12"
    (Throw (Error "API error: Not Found")) (Normal JNull) (Normal tt).

Definition renaming (name : string) : Sidebar.state :=
  Sidebar.State false (Some 12%Z) name [].

Definition hasId (chatId : Z) (c : Sidebar.chat) : bool :=
  Z.eqb (Sidebar.id c) chatId.

(** * Properties *)

(** ** Strings *)

Lemma append_cons (x : ascii) (a b : string) :
  String x a +:+ b = String x (a +:+ b).
Proof. reflexivity. Qed.

Lemma append_empty_r (a : string) : a +:+ "" = a.
Proof.
  induction a as [|x a IH]; [reflexivity|]. now rewrite append_cons, IH.
Qed.

Lemma append_assoc (a b c : string) : (a +:+ b) +:+ c = a +:+ (b +:+ c).
Proof.
  induction a as [|x a IH]; [reflexivity|]. now rewrite !append_cons, IH.
Qed.

Lemma trimStart_whitespaceOnly_bounded (n : nat) :
  forall s, String.length s <= n -> whitespaceOnly s = true -> trimStart s = "".
Proof.
  induction n as [|n IH]; intros s Hn Hws.
  - destruct s; [reflexivity | simpl in Hn; lia].
  - destruct s as [|a s1]; [reflexivity|].
    cbn [whitespaceOnly trimStart String.length] in *.
    destruct (isWhiteSpace1 a); [apply IH; [lia | exact Hws]|].
    destruct s1 as [|b s2]; [discriminate|].
    cbn [String.length] in Hn.
    destruct (isWhiteSpace2 a b); [apply IH; [lia | exact Hws]|].
    destruct s2 as [|c s3]; [discriminate|].
    cbn [String.length] in Hn.
    destruct (isWhiteSpace3 a b c); [|discriminate].
    apply IH; [lia | exact Hws].
Qed.

Lemma trimStart_whitespaceOnly (s : string) :
  whitespaceOnly s = true -> trimStart s = "".
Proof. apply (trimStart_whitespaceOnly_bounded (String.length s)). lia. Qed.

Lemma trim_whitespaceOnly (s : string) :
  whitespaceOnly s = true -> trim s = "".
Proof.
  intros H. unfold trim. now rewrite (trimStart_whitespaceOnly s H).
Qed.

(** ** The view state projector *)

Lemma messages_handleChatChunk (data : Data.t) (m : model) :
  messages (handleChatChunk data m) = chunkUpdater data (messages m).
Proof.
  unfold handleChatChunk.
  destruct (Data.complete data), (Data.suggested_follow_ups data); reflexivity.
Qed.

Lemma dispatch_chat_chunk (data : Data.t) (m : model) :
  isChatChunk data = true ->
  handleSocketMessage data m = (handleChatChunk data m, Normal tt).
Proof.
  unfold isChatChunk, handleSocketMessage. intros H.
  apply String.eqb_eq in H. rewrite H. reflexivity.
Qed.

Lemma dispatchAll_cons (data : Data.t) (rest : list Data.t) (m : model) :
  dispatchAll (data :: rest) m = dispatchAll rest (fst (handleSocketMessage data m)).
Proof. reflexivity. Qed.

Lemma chunkUpdater_fresh (data : Data.t) (prev : list Message.t) :
  lastIsAssistant prev = false ->
  chunkUpdater data prev = prev ++ [Message.mk "assistant" (Data.content data) None].
Proof.
  unfold lastIsAssistant, chunkUpdater. destruct (last prev) as [m|]; [|reflexivity].
  intros ->. reflexivity.
Qed.

Lemma chunkUpdater_merge (data : Data.t) (pre : list Message.t) (c : string)
      (imgs : option (list string)) :
  chunkUpdater data (pre ++ [Message.mk "assistant" c imgs])
  = pre ++ [Message.mk "assistant" (c +:+ Data.content data) imgs].
Proof.
  unfold chunkUpdater. rewrite last_snoc. simpl.
  now rewrite removelast_last.
Qed.

Lemma streamedTurn_cons (data : Data.t) (rest : list Data.t) :
  streamedTurn (data :: rest) = true ->
  isChatChunk data = true /\ (rest = [] \/ streamedTurn rest = true).
Proof.
  simpl. destruct (isChatChunk data); [|discriminate]. simpl.
  destruct rest as [|d rest']; [now auto|].
  destruct (Data.complete data); simpl; [discriminate|]. auto.
Qed.

(** Once an assistant entry is last, every further chunk of the turn is
    appended to it. *)
Lemma dispatchAll_merge (chunks : list Data.t) :
  forall (m : model) (pre : list Message.t) (c : string) (imgs : option (list string)),
    (chunks = [] \/ streamedTurn chunks = true) ->
    messages m = pre ++ [Message.mk "assistant" c imgs] ->
    messages (dispatchAll chunks m)
    = pre ++ [Message.mk "assistant" (c +:+ concatContents chunks) imgs].
Proof.
  induction chunks as [|data rest IH]; intros m pre c imgs Hturn Hm.
  - simpl. unfold concatContents. simpl.
    now rewrite append_empty_r.
  - destruct Hturn as [Hnil | Hturn]; [discriminate|].
    apply streamedTurn_cons in Hturn as [Hd Hrest].
    rewrite dispatchAll_cons, (dispatch_chat_chunk data m Hd). simpl fst.
    rewrite (IH (handleChatChunk data m) pre (c +:+ Data.content data) imgs Hrest).
    + unfold concatContents. cbn [map foldr]. now rewrite append_assoc.
    + rewrite messages_handleChatChunk, Hm. apply chunkUpdater_merge.
Qed.

(** C1. For every sequence of [chat_chunk] frames delivered in arrival order
    (all with [complete = false] except a final one with [complete = true])
    and every transcript whose last entry is not an assistant message, the
    transcript after dispatching the frames is the old transcript followed
    by one assistant entry whose content is the concatenation, in arrival
    order, of the contents of all the frames: every fragment is applied
    exactly once. *)
Theorem chat_chunks_concatenate (chunks : list Data.t) (m : model) :
  streamedTurn chunks = true ->
  lastIsAssistant (messages m) = false ->
  messages (dispatchAll chunks m)
  = messages m ++ [Message.mk "assistant" (concatContents chunks) None].
Proof.
  destruct chunks as [|data rest]; [discriminate|].
  intros Hturn Hlast.
  apply streamedTurn_cons in Hturn as [Hd Hrest].
  rewrite dispatchAll_cons, (dispatch_chat_chunk data m Hd). simpl fst.
  rewrite (dispatchAll_merge rest (handleChatChunk data m) (messages m)
             (Data.content data) None Hrest).
  - reflexivity.
  - rewrite messages_handleChatChunk. now apply chunkUpdater_fresh.
Qed.

Lemma chat_chunks_concatenate_witness :
  messages (dispatchAll [chunk "Hel" false; chunk "lo, " false; chunk "world" true]
                        (setMessages (fun _ => [userSays "hi"]) initialModel))
  = [userSays "hi"; Message.mk "assistant" "Hello, world" None].
Proof.
  apply (chat_chunks_concatenate
           [chunk "Hel" false; chunk "lo, " false; chunk "world" true]
           (setMessages (fun _ => [userSays "hi"]) initialModel));
    reflexivity.
Defined.

Lemma render_id (f : model -> model) (p : page) :
  f (ui p) = ui p -> render f p = p.
Proof. intros H. unfold render. rewrite H. now destruct p. Qed.

(** C3. For every inbound frame whose [for_type] is none of
    [sandbox_status], [chat_chunk] and [sandbox_file_tree], dispatching it
    returns the model unchanged (every field: status, transcript, preview
    URL, file tree, suggested follow-ups, preview counter and the rest) and
    raises no error; delivered through a socket, it leaves the whole page
    unchanged. *)
Theorem unknown_for_type_ignored (data : Data.t) (m : model) (h : nat) (p : page) :
  isSandboxStatus data = false ->
  isChatChunk data = false ->
  isSandboxFileTree data = false ->
  handleSocketMessage data m = (m, Normal tt) /\ step p (Frame h data) = p.
Proof.
  unfold isSandboxStatus, isChatChunk, isSandboxFileTree. intros H1 H2 H3.
  assert (Hm : forall m', handleSocketMessage data m' = (m', Normal tt)).
  { intros m'. unfold handleSocketMessage. now rewrite H1, H2, H3. }
  split; [apply Hm|].
  simpl. unfold onmessage.
  destruct (services p !! h) as [s|]; [|reflexivity].
  destruct (Service.listener s); [|reflexivity].
  apply render_id. now rewrite Hm.
Qed.

Lemma unknown_for_type_ignored_witness :
  handleSocketMessage pong (ui readySession) = (ui readySession, Normal tt)
  /\ step readySession (Frame 0 pong) = readySession.
Proof.
  apply (unknown_for_type_ignored pong (ui readySession) 0 readySession);
    reflexivity.
Defined.

Lemma readyWith_inv (url : string) (data : Data.t) :
  readyWith url data = true ->
  isSandboxStatus data = true /\ String.eqb (Data.status data) "READY" = true /\
  exists t, Data.tunnels data = Some t /\ t !! 3000%N = Some url.
Proof.
  unfold readyWith. intros H.
  apply andb_prop in H as [H Ht]. apply andb_prop in H as [Hf Hs].
  repeat split; [assumption..|].
  destruct (Data.tunnels data) as [t|]; [|discriminate].
  exists t. split; [reflexivity|]. now apply bool_decide_eq_true in Ht.
Qed.

Lemma dispatch_ready (url : string) (data : Data.t) (m : model) :
  readyWith url data = true ->
  handleSocketMessage data m
  = (setProjectPreviewUrl (Some url) (setStatus Ready m), Normal tt).
Proof.
  intros H. apply readyWith_inv in H as (Hf & Hs & t & Ht & Hu).
  unfold isSandboxStatus in Hf. unfold handleSocketMessage, handleSandboxStatus.
  now rewrite Hf, Hs, Ht, Hu.
Qed.

(** C4. For every state and every pair of consecutive [sandbox_status]
    frames with [status = READY] carrying different tunnel URLs for port
    3000, after dispatching both the status is Ready and the preview URL is
    the URL of the last frame; and a single such frame always leaves the
    preview URL equal to its own tunnel endpoint for port 3000. *)
Theorem ready_sets_latest_preview_url (m : model) (d1 d2 : Data.t) (u1 u2 : string) :
  readyWith u1 d1 = true ->
  readyWith u2 d2 = true ->
  String.eqb u1 u2 = false ->
  (status (fst (handleSocketMessage d1 m)) = Ready /\
   projectPreviewUrl (fst (handleSocketMessage d1 m)) = Some u1 /\
   snd (handleSocketMessage d1 m) = Normal tt) /\
  (status (dispatchAll [d1; d2] m) = Ready /\
   projectPreviewUrl (dispatchAll [d1; d2] m) = Some u2).
Proof.
  intros H1 H2 _.
  rewrite !dispatchAll_cons.
  rewrite (dispatch_ready u1 d1 m H1). simpl fst.
  rewrite (dispatch_ready u2 d2 _ H2). simpl.
  repeat split.
Qed.

Lemma ready_sets_latest_preview_url_witness :
  (status (fst (handleSocketMessage (ready "https://a.test") initialModel)) = Ready /\
   projectPreviewUrl (fst (handleSocketMessage (ready "https://a.test") initialModel))
   = Some "https://a.test" /\
   snd (handleSocketMessage (ready "https://a.test") initialModel) = Normal tt) /\
  (status (dispatchAll [ready "https://a.test"; ready "https://b.test"] initialModel)
   = Ready /\
   projectPreviewUrl
     (dispatchAll [ready "https://a.test"; ready "https://b.test"] initialModel)
   = Some "https://b.test").
Proof.
  apply (ready_sets_latest_preview_url initialModel
           (ready "https://a.test") (ready "https://b.test")
           "https://a.test" "https://b.test");
    vm_compute; reflexivity.
Defined.

(** C8. For every [chat_chunk] frame: if [complete] is true, dispatching it
    sets the streaming flag to false and adds exactly one to the preview
    counter; if the frame carries [suggested_follow_ups], the suggested
    follow-ups become that list, and if it does not they are unchanged. *)
Theorem chat_chunk_completion_and_follow_ups (data : Data.t) (m : model) :
  isChatChunk data = true ->
  (Data.complete data = true ->
   respStreaming (fst (handleSocketMessage data m)) = false /\
   previewHash (fst (handleSocketMessage data m)) = (previewHash m + 1)%Z) /\
  (forall l, Data.suggested_follow_ups data = Some l ->
             suggestedFollowUps (fst (handleSocketMessage data m)) = l) /\
  (Data.suggested_follow_ups data = None ->
   suggestedFollowUps (fst (handleSocketMessage data m)) = suggestedFollowUps m).
Proof.
  intros H. rewrite (dispatch_chat_chunk data m H). simpl fst.
  unfold handleChatChunk.
  split; [|split].
  - intros ->. destruct (Data.suggested_follow_ups data); split; reflexivity.
  - intros l ->. reflexivity.
  - intros ->. now destruct (Data.complete data).
Qed.

Lemma chat_chunk_completion_and_follow_ups_witness :
  respStreaming
    (fst (handleSocketMessage (chunkWithFollowUps "done" ["Add tests"])
            (setRespStreaming true initialModel))) = false /\
  previewHash
    (fst (handleSocketMessage (chunkWithFollowUps "done" ["Add tests"])
            (setRespStreaming true initialModel))) = 2%Z /\
  suggestedFollowUps
    (fst (handleSocketMessage (chunkWithFollowUps "done" ["Add tests"])
            (setRespStreaming true initialModel))) = ["Add tests"].
Proof.
  destruct (chat_chunk_completion_and_follow_ups
              (chunkWithFollowUps "done" ["Add tests"])
              (setRespStreaming true initialModel) eq_refl)
    as [Hdone [Hsome _]].
  destruct (Hdone eq_refl) as [Hflag Hhash].
  split; [exact Hflag|]. split; [exact Hhash|].
  exact (Hsome ["Add tests"] eq_refl).
Defined.

(** C10. For every message whose content is empty or whitespace-only and
    whose images list is empty, [handleSendMessage] returns at once: the
    page is unchanged (no transcript entry, the streaming flag as it was)
    and no call is made on the socket service or the REST client. *)
Theorem blank_message_is_noop (e : env) (message : Draft.t) (p : page) :
  whitespaceOnly (Draft.content message) = true ->
  Draft.images message = Some [] ->
  handleSendMessage e message p = (p, Normal tt).
Proof.
  intros Hws Himg. unfold handleSendMessage.
  rewrite (trim_whitespaceOnly _ Hws), Himg. reflexivity.
Qed.

Lemma blank_message_is_noop_witness :
  handleSendMessage existingChat blank readySession = (readySession, Normal tt).
Proof.
  apply (blank_message_is_noop existingChat blank readySession); reflexivity.
Defined.

(** ** Sending *)

(** C2, counterexample.  After the socket of a ready session has closed the
    status is Disconnected and no handle is live, yet [handleSendMessage]
    raises nothing of its own: it calls [sendMessage] on the stored handle
    and completes as that call does. *)
Lemma send_while_disconnected_reaches_handle :
  status (ui closedSession) = Disconnected /\
  liveHandles closedSession = [] /\
  snd (handleSendMessage existingChat hello closedSession)
  = sendMessage_result existingChat /\
  List.filter isSend (log (fst (handleSendMessage existingChat hello closedSession)))
  = [ws_sendMessage 0 [userSays "hello"]].
Proof. vm_compute. repeat split. Qed.

(** C2, as the code has it.  For a message that passes the guard, on an
    existing chat, [handleSendMessage] never looks at the status.  It sets
    the streaming flag and appends the user message; then, if no handle is
    stored in [webSocketRef], it throws a TypeError and calls nothing, and
    if a handle is stored it calls that handle's [sendMessage] once with
    the transcript followed by the new user message, completing as that
    call completes. *)
Theorem send_checks_only_the_stored_handle (e : env) (message : Draft.t) (p : page) :
  String.eqb (chatId e) "new" = false ->
  sendable message = true ->
  let userMessage :=
    Message.mk "user" (Draft.content message)
               (Some (default [] (Draft.images message))) in
  let p' := fst (handleSendMessage e message p) in
  respStreaming (ui p') = true /\
  messages (ui p') = messages (ui p) ++ [userMessage] /\
  match webSocketRef p with
  | None =>
      snd (handleSendMessage e message p)
      = Throw (TypeError "Cannot read properties of null (reading 'sendMessage')")
      /\ log p' = log p
  | Some h =>
      snd (handleSendMessage e message p) = sendMessage_result e
      /\ log p' = log p ++ [ws_sendMessage h (messages (ui p) ++ [userMessage])]
  end.
Proof.
  intros Hchat Hsend userMessage p'. subst p' userMessage.
  unfold sendable in Hsend. unfold handleSendMessage. rewrite Hchat.
  destruct (truthy (trim (Draft.content message))).
  - destruct (webSocketRef p); simpl; repeat split.
  - simpl in Hsend.
    destruct (Draft.images message) as [[|img imgs]|]; try discriminate.
    destruct (webSocketRef p); simpl; repeat split.
Qed.

Lemma send_checks_only_the_stored_handle_witness :
  respStreaming (ui (fst (handleSendMessage existingChat hello readySession))) = true /\
  messages (ui (fst (handleSendMessage existingChat hello readySession)))
  = [userSays "hello"] /\
  snd (handleSendMessage existingChat hello readySession) = Normal tt /\
  log (fst (handleSendMessage existingChat hello readySession))
  = log readySession ++ [ws_sendMessage 0 [userSays "hello"]].
Proof.
  exact (send_checks_only_the_stored_handle existingChat hello readySession
           eq_refl eq_refl).
Defined.

(** ** Socket callbacks *)

Lemma known_lookup (h : nat) (p : page) :
  known h p = true -> exists s, services p !! h = Some s.
Proof.
  unfold known. intros H. apply bool_decide_eq_true in H.
  destruct (lookup_lt_is_Some_2 (services p) h H) as [s Hs]. now exists s.
Qed.

Lemma isPending_settled (h : nat) (r : promise) (p : page) :
  r <> Pending -> isPending h (onService h (settle r) p) = false.
Proof.
  intros Hr. unfold isPending, onService. simpl.
  rewrite list_lookup_alter_eq.
  destruct (services p !! h) as [s|]; simpl; [|reflexivity].
  destruct r; [contradiction | reflexivity..].
Qed.

Lemma connectingOf_settled (h : nat) (r : promise) (p : page) :
  isPending h p = true -> connectingOf h (onService h (settle r) p) = Some r.
Proof.
  unfold isPending, connectingOf, onService. simpl.
  rewrite list_lookup_alter_eq.
  destruct (services p !! h) as [s|]; simpl; [reflexivity | discriminate].
Qed.

(** The error event by itself only rejects the connect promise: while the
    connect is pending the status becomes Disconnected and the preview URL
    is kept; once the connect has settled the page is unchanged until the
    close event arrives. *)
Lemma error_event_only_rejects (h : nat) (p : page) :
  (isPending h p = true ->
   status (ui (step p (SocketError h))) = Disconnected /\
   projectPreviewUrl (ui (step p (SocketError h))) = projectPreviewUrl (ui p)) /\
  (isPending h p = false -> step p (SocketError h) = p).
Proof.
  split; intros Hp; simpl; unfold onerror, reject; rewrite Hp.
  - split; reflexivity.
  - reflexivity.
Qed.

Lemma close_event_disconnects (h : nat) (p : page) :
  known h p = true ->
  status (ui (step p (SocketClose h))) = Disconnected /\
  projectPreviewUrl (ui (step p (SocketClose h))) = None.
Proof.
  intros Hk. apply known_lookup in Hk as [s Hs].
  simpl. unfold onclose, onService. simpl.
  rewrite list_lookup_alter_eq, Hs. simpl. split; reflexivity.
Qed.

Lemma known_after_error (h : nat) (p : page) :
  known h p = true -> known h (step p (SocketError h)) = true.
Proof.
  intros Hk. simpl. unfold onerror, reject.
  destruct (isPending h p); [|exact Hk].
  unfold known, connectFailed, render, emit, onService in *. cbn [services].
  now rewrite length_alter.
Qed.

(** C6.  From every session state, for every socket the page has created:
    a transport-level close sets the status to Disconnected and the preview
    URL to null, and so does a transport-level error (the error event with
    the close event that follows it), whether the connect was still pending
    or had long resolved.  After the close has been delivered the session
    is never in SettingUp or Ready. *)
Theorem close_or_error_disconnects (h : nat) (p : page) :
  known h p = true ->
  (status (ui (step p (SocketClose h))) = Disconnected /\
   projectPreviewUrl (ui (step p (SocketClose h))) = None) /\
  (status (ui (run (transportFailure h) p)) = Disconnected /\
   projectPreviewUrl (ui (run (transportFailure h) p)) = None).
Proof.
  intros Hk. split.
  - exact (close_event_disconnects h p Hk).
  - change (run (transportFailure h) p)
      with (step (step p (SocketError h)) (SocketClose h)).
    apply close_event_disconnects, known_after_error, Hk.
Qed.

Lemma close_or_error_disconnects_witness :
  (status (ui (step readySession (SocketClose 0))) = Disconnected /\
   projectPreviewUrl (ui (step readySession (SocketClose 0))) = None) /\
  (status (ui (run (transportFailure 0) readySession)) = Disconnected /\
   projectPreviewUrl (ui (run (transportFailure 0) readySession)) = None) /\
  (status (ui (run (transportFailure 0) pendingSession)) = Disconnected /\
   projectPreviewUrl (ui (run (transportFailure 0) pendingSession)) = None).
Proof.
  destruct (close_or_error_disconnects 0 readySession eq_refl) as [Hclose Hfail].
  destruct (close_or_error_disconnects 0 pendingSession eq_refl) as [_ Hpending].
  split; [exact Hclose|]. split; [exact Hfail | exact Hpending].
Defined.

(** ** The connect race *)

Lemma length_services_initializeWebSocket (wsProjectId : string) (p : page) :
  length (services (initializeWebSocket wsProjectId p)) = S (length (services p)).
Proof.
  unfold initializeWebSocket.
  destruct (webSocketRef p) as [cur|]; simpl;
    rewrite ?length_alter, length_app, ?length_alter; simpl; lia.
Qed.

Lemma lookup_new_service (wsProjectId : string) (p : page) :
  services (initializeWebSocket wsProjectId p) !! length (services p)
  = Some (Service.mk wsProjectId CONNECTING Pending false).
Proof.
  unfold initializeWebSocket.
  destruct (webSocketRef p) as [cur|]; simpl;
    rewrite ?length_alter, list_lookup_alter_eq.
  - rewrite lookup_app_r; rewrite length_alter; [|lia].
    now rewrite Nat.sub_diag.
  - rewrite lookup_app_r; [|lia]. now rewrite Nat.sub_diag.
Qed.

Lemma log_initializeWebSocket (wsProjectId : string) (p : page) :
  let h := length (services p) in
  log (initializeWebSocket wsProjectId p)
  = log p ++
    match webSocketRef p with Some cur => [ws_disconnect cur] | None => [] end ++
    [ws_new h wsProjectId; ws_connect h; setTimeout_reject h 5000].
Proof.
  unfold initializeWebSocket.
  destruct (webSocketRef p) as [cur|]; simpl; rewrite ?length_alter;
    rewrite <- ?app_assoc; reflexivity.
Qed.

Lemma settled_noop (h : nat) (q : page) :
  isPending h q = false ->
  onopen h q = q /\ onerror h q = q /\ ontimeout h q = q.
Proof.
  intros H. unfold onopen, onerror, ontimeout, reject. rewrite H. repeat split.
Qed.

Lemma isPending_onopen (h : nat) (p : page) : isPending h (onopen h p) = false.
Proof.
  unfold onopen. destruct (isPending h p) eqn:Hp; [|exact Hp].
  unfold connected, isPending. simpl.
  rewrite !list_lookup_alter_eq.
  destruct (services p !! h) as [s|]; reflexivity.
Qed.

Lemma isPending_reject (h : nat) (e : js_error) (p : page) :
  isPending h (reject h e p) = false.
Proof.
  unfold reject. destruct (isPending h p) eqn:Hp; [|exact Hp].
  unfold connectFailed, isPending. simpl.
  rewrite list_lookup_alter_eq.
  destruct (services p !! h) as [s|]; reflexivity.
Qed.

(** From a pending promise to the service that owns it. *)
Ltac pending_service Hp :=
  unfold isPending in Hp;
  match type of Hp with
  | context [services ?p !! ?h] =>
      destruct (services p !! h) as [?s|]; [|discriminate Hp]
  end.

(** C7.  [initializeWebSocket] leaves the connect promise of the new handle
    pending and arms a timer of 5000 ms.  While the promise is pending, the
    first of the three events decides: open fulfils it (status "Setting up",
    listener registered, handle stored); a transport error rejects it with
    the error event; the timer rejects it with the connection-timeout
    error; both rejections show as Disconnected and log the failure without
    issuing a new connect.  After any one of them has fired, all three are
    no-ops on the page. *)
Theorem connect_race_first_event_wins
        (wsProjectId : string) (p0 : page) (h : nat) (p : page) :
  isPending h p = true ->
  (isPending (length (services p0)) (initializeWebSocket wsProjectId p0) = true /\
   last (log (initializeWebSocket wsProjectId p0))
   = Some (setTimeout_reject (length (services p0)) 5000)) /\
  (connectingOf h (onopen h p) = Some Fulfilled /\
   status (ui (onopen h p)) = SettingUp /\
   listenerOf h (onopen h p) = Some true /\
   webSocketRef (onopen h p) = Some h) /\
  (connectingOf h (onerror h p) = Some (Rejected (ErrorEvent h)) /\
   status (ui (onerror h p)) = Disconnected /\
   webSocketRef (onerror h p) = webSocketRef p /\
   List.filter isConnect (log (onerror h p)) = List.filter isConnect (log p)) /\
  (connectingOf h (ontimeout h p)
   = Some (Rejected (Error "WebSocket connection timeout")) /\
   status (ui (ontimeout h p)) = Disconnected /\
   webSocketRef (ontimeout h p) = webSocketRef p /\
   List.filter isConnect (log (ontimeout h p)) = List.filter isConnect (log p)) /\
  (forall q, q = onopen h p \/ q = onerror h p \/ q = ontimeout h p ->
             onopen h q = q /\ onerror h q = q /\ ontimeout h q = q).
Proof.
  intros Hp. split; [|split; [|split; [|split]]].
  - split.
    + unfold isPending. now rewrite lookup_new_service.
    + rewrite log_initializeWebSocket. simpl.
      rewrite app_assoc.
      change [ws_new (length (services p0)) wsProjectId;
              ws_connect (length (services p0));
              setTimeout_reject (length (services p0)) 5000]
        with ([ws_new (length (services p0)) wsProjectId;
               ws_connect (length (services p0))]
              ++ [setTimeout_reject (length (services p0)) 5000]).
      rewrite app_assoc. apply last_snoc.
  - unfold onopen. rewrite Hp. unfold connected, connectingOf, listenerOf.
    simpl. rewrite !list_lookup_alter_eq.
    pending_service Hp. repeat split.
  - unfold onerror, reject. rewrite Hp. unfold connectFailed, connectingOf.
    simpl. rewrite list_lookup_alter_eq.
    pending_service Hp.
    repeat split. rewrite List.filter_app. simpl. apply app_nil_r.
  - unfold ontimeout, reject. rewrite Hp. unfold connectFailed, connectingOf.
    simpl. rewrite list_lookup_alter_eq.
    pending_service Hp.
    repeat split. rewrite List.filter_app. simpl. apply app_nil_r.
  - intros q [-> | [-> | ->]]; apply settled_noop.
    + apply isPending_onopen.
    + apply isPending_reject.
    + apply isPending_reject.
Qed.

Lemma connect_race_first_event_wins_witness :
  status (ui (onopen 0 pendingSession)) = SettingUp /\
  status (ui (ontimeout 0 pendingSession)) = Disconnected /\
  connectingOf 0 (ontimeout 0 pendingSession)
  = Some (Rejected (Error "WebSocket connection timeout")) /\
  onopen 0 (ontimeout 0 pendingSession) = ontimeout 0 pendingSession /\
  onerror 0 (onopen 0 pendingSession) = onopen 0 pendingSession.
Proof.
  destruct (connect_race_first_event_wins "p1" initialPage 0 pendingSession eq_refl)
    as (_ & (_ & Hopen & _) & _ & (Hrej & Htimeout & _) & Hnoop).
  split; [exact Hopen|]. split; [exact Htimeout|]. split; [exact Hrej|].
  split.
  - exact (proj1 (Hnoop (ontimeout 0 pendingSession) (or_intror (or_intror eq_refl)))).
  - exact (proj1 (proj2 (Hnoop (onopen 0 pendingSession) (or_introl eq_refl)))).
Defined.

(** ** Re-opening a session *)

Lemma filter_none {A} (f : A -> bool) (l : list A) :
  (forall x, In x l -> f x = false) -> List.filter f l = [].
Proof.
  induction l as [|a l IH]; intros H; [reflexivity|]. simpl.
  rewrite (H a (or_introl eq_refl)). apply IH. intros x Hx. apply H. now right.
Qed.

Lemma liveHandles_preserved (p q : page) :
  length (services q) = length (services p) ->
  (forall x, liveAt q x = liveAt p x) ->
  liveHandles q = liveHandles p.
Proof.
  intros Hlen Hlive. unfold liveHandles. rewrite Hlen.
  apply List.filter_ext. exact Hlive.
Qed.

Lemma liveAt_onService (h : nat) (f : Service.t -> Service.t) (p : page) (x : nat) :
  (forall s, isLive (f s) = isLive s) ->
  liveAt (onService h f p) x = liveAt p x.
Proof.
  intros Hf. unfold liveAt, onService. simpl.
  destruct (decide (h = x)) as [->|Hne].
  - rewrite list_lookup_alter_eq. destruct (services p !! x); simpl; auto.
  - now rewrite list_lookup_alter_ne.
Qed.

Lemma isLive_svc_opened (s : Service.t) : isLive (svc_opened s) = isLive s.
Proof. unfold svc_opened, isLive. destruct (Service.ws s) eqn:E; simpl; now rewrite ?E. Qed.

(** A socket that reports open does not change which handles are live. *)
Lemma liveHandles_SocketOpen (h : nat) (p : page) :
  liveHandles (step p (SocketOpen h)) = liveHandles p.
Proof.
  simpl. unfold onopen.
  destruct (isPending h (onService h svc_opened p)).
  - unfold connected.
    apply liveHandles_preserved.
    + simpl. now rewrite !length_alter.
    + intros x. unfold liveAt. simpl.
      change (liveAt (onService h svc_addListener
                (onService h (settle Fulfilled) (onService h svc_opened p))) x
              = liveAt p x).
      rewrite !liveAt_onService; auto using isLive_svc_opened.
  - apply liveHandles_preserved.
    + simpl. now rewrite length_alter.
    + intros x. apply liveAt_onService, isLive_svc_opened.
Qed.

Lemma liveAt_In (p : page) (x : nat) :
  liveAt p x = true -> In x (liveHandles p).
Proof.
  intros H. unfold liveHandles. apply List.filter_In. split; [|exact H].
  apply in_seq. unfold liveAt in H.
  destruct (services p !! x) as [s|] eqn:E; [|discriminate].
  apply lookup_lt_Some in E. lia.
Qed.

Lemma stored_after_open (h : nat) (p : page) :
  isPending h (onService h svc_opened p) = true ->
  webSocketRef (step p (SocketOpen h)) = Some h.
Proof. intros H. simpl. unfold onopen. now rewrite H. Qed.

(** C5, where the code falls short.  The guard of [initializeWebSocket]
    disconnects only the handle stored in [webSocketRef], and a handle is
    stored only after its connect has resolved.  Two calls in succession
    whose sockets then open: [disconnect] is never called, both handles are
    live, and both have the dispatcher registered.  The same two live
    handles remain after a connect that timed out, whose socket opened
    late, followed by a second call. *)
Theorem reopen_leaves_two_live_handles :
  (liveHandles overlappingOpens = [0; 1] /\
   List.filter isDisconnect (log overlappingOpens) = [] /\
   isListening 0 overlappingOpens = true /\
   isListening 1 overlappingOpens = true) /\
  (liveHandles lateOpen = [0; 1] /\
   List.filter isDisconnect (log lateOpen) = []).
Proof. vm_compute. repeat split. Qed.

(** Whatever else is live, a stored handle is disconnected before the new
    service is created and connected. *)
Lemma reopen_disconnects_first (wsProjectId : string) (p : page) (cur : nat) :
  webSocketRef p = Some cur ->
  log (initializeWebSocket wsProjectId p)
  = log p ++ [ws_disconnect cur; ws_new (length (services p)) wsProjectId;
              ws_connect (length (services p));
              setTimeout_reject (length (services p)) 5000].
Proof. intros Href. rewrite log_initializeWebSocket, Href. reflexivity. Qed.

(** The path that works: when the stored handle is the only live one, the
    new handle is the only live one after the call, and once its socket
    reports open it is still the only live one and is the stored handle. *)
Theorem reopen_disconnects_stored_handle (wsProjectId : string) (p : page) (cur : nat) :
  webSocketRef p = Some cur ->
  forallb (Nat.eqb cur) (liveHandles p) = true ->
  let h := length (services p) in
  let p1 := initializeWebSocket wsProjectId p in
  let p2 := step p1 (SocketOpen h) in
  log p1 = log p ++ [ws_disconnect cur; ws_new h wsProjectId; ws_connect h;
                     setTimeout_reject h 5000] /\
  liveHandles p1 = [h] /\
  liveHandles p2 = [h] /\
  webSocketRef p2 = Some h.
Proof.
  intros Href Honly h p1 p2.
  assert (Hlog : log p1 = log p ++ [ws_disconnect cur; ws_new h wsProjectId;
                                    ws_connect h; setTimeout_reject h 5000]).
  { subst p1 h. rewrite log_initializeWebSocket, Href. reflexivity. }
  assert (Hnew : services p1 !! h = Some (Service.mk wsProjectId CONNECTING Pending false))
    by apply lookup_new_service.
  assert (Hold : forall x, x < h -> liveAt p1 x = false).
  { intros x Hx. subst p1 h. unfold liveAt, initializeWebSocket.
    rewrite Href. simpl. rewrite length_alter.
    rewrite list_lookup_alter_ne by lia.
    rewrite lookup_app_l by (rewrite length_alter; lia).
    destruct (decide (cur = x)) as [->|Hne].
    - rewrite list_lookup_alter_eq. destruct (services p !! x); reflexivity.
    - rewrite list_lookup_alter_ne by assumption.
      destruct (liveAt p x) eqn:Hl.
      + apply liveAt_In in Hl.
        rewrite forallb_forall in Honly. apply Honly in Hl.
        apply Nat.eqb_eq in Hl. contradiction.
      + exact Hl. }
  assert (Hlive1 : liveHandles p1 = [h]).
  { unfold liveHandles. subst p1.
    rewrite length_services_initializeWebSocket. fold h.
    rewrite seq_S, List.filter_app. simpl.
    rewrite filter_none.
    - unfold liveAt. now rewrite Hnew.
    - intros x Hx. apply in_seq in Hx. apply Hold. lia. }
  split; [exact Hlog|]. split; [exact Hlive1|]. split.
  - subst p2. now rewrite liveHandles_SocketOpen.
  - subst p2. apply stored_after_open.
    unfold isPending, onService. cbn [services].
    now rewrite list_lookup_alter_eq, Hnew.
Qed.

Lemma reopen_disconnects_stored_handle_witness :
  log (initializeWebSocket "p2" readySession)
  = log readySession ++ [ws_disconnect 0; ws_new 1 "p2"; ws_connect 1;
                          setTimeout_reject 1 5000] /\
  liveHandles (initializeWebSocket "p2" readySession) = [1] /\
  liveHandles (step (initializeWebSocket "p2" readySession) (SocketOpen 1)) = [1] /\
  webSocketRef (step (initializeWebSocket "p2" readySession) (SocketOpen 1)) = Some 1.
Proof.
  exact (reopen_disconnects_stored_handle "p2" readySession 0 eq_refl eq_refl).
Defined.

(** ** The REST client *)

Lemma settle_not_ok (res : Api.response) :
  Api.ok res = false ->
  Api.settle (Api.Responds res) = Throw (Error ("API error: " +:+ Api.statusText res)).
Proof. intros H. unfold Api.settle. now rewrite H. Qed.

(** C9, counterexample.  A 401 Unauthorized answer to [getChats] is thrown
    to the caller, but the token stays in [localStorage] and the page is not
    reloaded; the same holds for [getCurrentUser] of the earlier client. *)
Lemma unauthorized_getChats_keeps_token :
  (snd (Api.perform Api.GetChats (Api.Responds unauthorized) loggedIn)
   = Throw (Error "API error: Unauthorized") /\
   Api.token (fst (Api.perform Api.GetChats (Api.Responds unauthorized) loggedIn))
   = Some "t0k3n" /\
   Api.reloads (fst (Api.perform Api.GetChats (Api.Responds unauthorized) loggedIn))
   = 0) /\
  (Api.token (fst (ApiV0.getCurrentUser (Api.Responds unauthorized) loggedIn))
   = Some "t0k3n" /\
   Api.reloads (fst (ApiV0.getCurrentUser (Api.Responds unauthorized) loggedIn)) = 0).
Proof. vm_compute. repeat split. Qed.

(** C9, as the code has it.  Every request of the client turns a non-2xx
    response into a thrown [Error] whose message is "API error: " followed
    by the response's status text.  [getCurrentUser] alone does more: when
    that message contains "401" or "Unauthorized" it removes the stored
    token and reloads the page before rethrowing; otherwise, and for every
    other method, the token and the page are left as they were. *)
Theorem non_2xx_is_thrown_and_getCurrentUser_invalidates
        (o : Api.op) (res : Api.response) (b : Api.browser) :
  Api.ok res = false ->
  let r := Api.perform o (Api.Responds res) b in
  let msg := "API error: " +:+ Api.statusText res in
  snd r = Throw (Error msg) /\
  match o with
  | Api.GetCurrentUser =>
      if includes msg "401" || includes msg "Unauthorized"
      then Api.token (fst r) = None /\ Api.reloads (fst r) = S (Api.reloads b)
      else Api.token (fst r) = Api.token b /\ Api.reloads (fst r) = Api.reloads b
  | _ => Api.token (fst r) = Api.token b /\ Api.reloads (fst r) = Api.reloads b
  end.
Proof.
  intros Hok r msg. subst r msg.
  destruct o; cbn [Api.perform];
    unfold Api.some, Api.createAccount, Api.getCurrentUser, Api.getTeams,
           Api.getChats, Api.createChat, Api.getChat, Api.updateChat,
           Api.getTeamProjects, Api.getProject, Api.getProjectFile,
           Api.getStackPacks, Api.deleteChat,
           Api._get, Api._post, Api._patch, Api._delete;
    rewrite (settle_not_ok res Hok); cbn [fst snd message];
    try (split; [reflexivity | split; reflexivity]).
  destruct (includes _ "401" || includes _ "Unauthorized");
    split; try reflexivity; split; reflexivity.
Qed.

Lemma non_2xx_is_thrown_and_getCurrentUser_invalidates_witness :
  snd (Api.perform Api.GetCurrentUser (Api.Responds unauthorized) loggedIn)
  = Throw (Error "API error: Unauthorized") /\
  Api.token (fst (Api.perform Api.GetCurrentUser (Api.Responds unauthorized) loggedIn))
  = None /\
  Api.reloads (fst (Api.perform Api.GetCurrentUser (Api.Responds unauthorized) loggedIn))
  = 1.
Proof.
  exact (non_2xx_is_thrown_and_getCurrentUser_invalidates
           Api.GetCurrentUser unauthorized loggedIn eq_refl).
Defined.

(** * Further properties of the workspace page *)

(** ** Sequences of frames *)

Lemma dispatchAll_snoc (frames : list Data.t) (data : Data.t) (m : model) :
  dispatchAll (frames ++ [data]) m
  = fst (handleSocketMessage data (dispatchAll frames m)).
Proof. unfold dispatchAll. now rewrite foldl_snoc. Qed.

Lemma lastWhere_snoc (f : Data.t -> bool) (frames : list Data.t) (data : Data.t) :
  lastWhere f (frames ++ [data])
  = if f data then Some data else lastWhere f frames.
Proof.
  unfold lastWhere. rewrite List.filter_app. simpl.
  destruct (f data); [apply last_snoc | now rewrite app_nil_r].
Qed.

(** What one dispatched frame does to each field, by kind of frame. *)
Lemma dispatch_cases (data : Data.t) (m : model) :
  let m' := fst (handleSocketMessage data m) in
  messages m' = (if isChatChunk data then chunkUpdater data (messages m)
                 else messages m) /\
  previewHash m' = (if completes data then previewHash m + 1 else previewHash m)%Z /\
  respStreaming m' = (if completes data then false else respStreaming m) /\
  projectPreviewUrl m' = (if writesPreviewUrl data then tunnel3000 data
                          else projectPreviewUrl m) /\
  status m' = (if isReady data || isBuilding data then badgeOf data else status m) /\
  projectFileTree m' = (if isSandboxFileTree data then Data.paths data
                        else projectFileTree m).
Proof.
  unfold handleSocketMessage, completes, writesPreviewUrl, isReady, isBuilding,
    tunnel3000, badgeOf, isChatChunk, isSandboxStatus, isSandboxFileTree.
  destruct (String.eqb_spec (Data.for_type data) "sandbox_status") as [E|_].
  - rewrite E. simpl. unfold handleSandboxStatus.
    destruct (String.eqb (Data.status data) "READY").
    + destruct (Data.tunnels data); simpl; repeat split.
    + destruct (String.eqb (Data.status data) "BUILDING"); simpl; repeat split.
  - destruct (String.eqb_spec (Data.for_type data) "chat_chunk") as [E|_].
    + rewrite E. simpl. unfold handleChatChunk.
      destruct (Data.complete data), (Data.suggested_follow_ups data);
        simpl; repeat split.
    + destruct (String.eqb_spec (Data.for_type data) "sandbox_file_tree") as [E|_];
        simpl; repeat split.
Qed.

(** X1. Whatever frames arrive, the preview counter ends at its old value
    plus the number of [chat_chunk] frames that had [complete] set: one
    bump per finished turn, none for any other frame. *)
Theorem previewHash_counts_completed_turns (frames : list Data.t) (m : model) :
  previewHash (dispatchAll frames m)
  = (previewHash m + Z.of_nat (length (List.filter completes frames)))%Z.
Proof.
  induction frames as [|data frames IH] using rev_ind.
  - simpl. lia.
  - rewrite dispatchAll_snoc.
    destruct (dispatch_cases data (dispatchAll frames m)) as (_ & Hh & _).
    rewrite Hh, IH, List.filter_app, length_app. simpl.
    destruct (completes data); simpl; lia.
Qed.

(** X2. After any sequence of frames the status badge and the preview URL
    are those of the latest frame that wrote them: the badge follows the
    last [sandbox_status] frame with status READY or BUILDING, the URL is
    port 3000 of the last READY frame that has a [tunnels] object (null if
    that object lacks the port); with no such frame they are unchanged.  A
    BUILDING frame after a READY one therefore keeps the old URL. *)
Theorem status_and_url_follow_latest_frame (frames : list Data.t) (m : model) :
  status (dispatchAll frames m)
  = match lastWhere (fun d => isReady d || isBuilding d) frames with
    | Some d => badgeOf d
    | None => status m
    end /\
  projectPreviewUrl (dispatchAll frames m)
  = match lastWhere writesPreviewUrl frames with
    | Some d => tunnel3000 d
    | None => projectPreviewUrl m
    end.
Proof.
  induction frames as [|data frames [IHs IHu]] using rev_ind.
  - split; reflexivity.
  - rewrite dispatchAll_snoc, !lastWhere_snoc.
    destruct (dispatch_cases data (dispatchAll frames m)) as (_ & _ & _ & Hu & Hs & _).
    rewrite Hu, Hs. split.
    + destruct (isReady data || isBuilding data); [reflexivity | exact IHs].
    + destruct (writesPreviewUrl data); [reflexivity | exact IHu].
Qed.

(** X3. After any sequence of frames the file tree is the path list of the
    last [sandbox_file_tree] frame, whole; no other frame touches it. *)
Theorem file_tree_is_latest_frame (frames : list Data.t) (m : model) :
  projectFileTree (dispatchAll frames m)
  = match lastWhere isSandboxFileTree frames with
    | Some d => Data.paths d
    | None => projectFileTree m
    end.
Proof.
  induction frames as [|data frames IH] using rev_ind.
  - reflexivity.
  - rewrite dispatchAll_snoc, lastWhere_snoc.
    destruct (dispatch_cases data (dispatchAll frames m)) as (_ & _ & _ & _ & _ & Ht).
    rewrite Ht. destruct (isSandboxFileTree data); [reflexivity | exact IH].
Qed.

(** X4. A READY frame without a [tunnels] object throws a TypeError after
    the badge has already been set to Ready: the status changes, the
    preview URL keeps its old value, and nothing else changes. *)
Theorem ready_without_tunnels_throws_half_applied (data : Data.t) (m : model) :
  isReady data = true ->
  Data.tunnels data = None ->
  handleSocketMessage data m
  = (setStatus Ready m,
     Throw (TypeError "Cannot read properties of undefined (reading '3000')")).
Proof.
  unfold isReady, isSandboxStatus. intros H Ht.
  apply andb_prop in H as [Hf Hs].
  unfold handleSocketMessage, handleSandboxStatus. now rewrite Hf, Hs, Ht.
Qed.

Lemma ready_without_tunnels_throws_half_applied_witness :
  handleSocketMessage readyWithoutTunnels (ui readySession)
  = (setStatus Ready (ui readySession),
     Throw (TypeError "Cannot read properties of undefined (reading '3000')")).
Proof.
  apply (ready_without_tunnels_throws_half_applied readyWithoutTunnels
           (ui readySession)); reflexivity.
Defined.

(** ** The transcript under inbound frames *)

Lemma chunkUpdater_keeps (data : Data.t) (prev : list Message.t)
      (i : nat) (entry : Message.t) :
  prev !! i = Some entry ->
  settledEntry prev i = true ->
  chunkUpdater data prev !! i = Some entry /\
  settledEntry (chunkUpdater data prev) i = true.
Proof.
  intros Hi Hs.
  assert (Hlt : i < length prev) by (apply lookup_lt_Some in Hi; exact Hi).
  assert (Happ : forall x, (prev ++ [x]) !! i = Some entry /\
                           settledEntry (prev ++ [x]) i = true).
  { intros x. split.
    - now rewrite lookup_app_l.
    - unfold settledEntry. rewrite lookup_app_l, Hi by exact Hlt.
      rewrite length_app. simpl.
      replace (Nat.ltb (S i) (length prev + 1)) with true; [reflexivity|].
      symmetry. apply Nat.ltb_lt. lia. }
  unfold chunkUpdater.
  destruct (last prev) as [lastMessage|] eqn:Hlast; [|apply Happ].
  destruct (String.eqb (Message.role lastMessage) "assistant") eqn:Hrole;
    [|apply Happ].
  apply last_Some in Hlast as [pre ->].
  rewrite removelast_last.
  rewrite length_app in Hlt. simpl in Hlt.
  destruct (decide (i = length pre)) as [->|Hne].
  - exfalso. unfold settledEntry in Hs.
    rewrite Hi in Hs.
    rewrite list_lookup_middle in Hi by reflexivity. injection Hi as <-.
    rewrite Hrole, length_app in Hs. simpl in Hs.
    rewrite orb_false_r in Hs. apply Nat.ltb_lt in Hs. lia.
  - assert (Hpre : i < length pre) by lia.
    rewrite lookup_app_l in Hi by exact Hpre.
    split.
    + now rewrite lookup_app_l.
    + unfold settledEntry. rewrite lookup_app_l, Hi by exact Hpre.
      rewrite length_app. simpl.
      replace (Nat.ltb (S i) (length pre + 1)) with true; [reflexivity|].
      symmetry. apply Nat.ltb_lt. lia.
Qed.

Lemma length_chunkUpdater (data : Data.t) (prev : list Message.t) :
  length prev <= length (chunkUpdater data prev).
Proof.
  unfold chunkUpdater.
  destruct (last prev) as [lastMessage|] eqn:Hlast;
    [|rewrite length_app; simpl; lia].
  destruct (String.eqb (Message.role lastMessage) "assistant");
    [|rewrite length_app; simpl; lia].
  apply last_Some in Hlast as [pre ->].
  rewrite removelast_last, !length_app. simpl. lia.
Qed.

(** X5. No sequence of inbound frames shortens the transcript, and none
    rewrites an entry that is not the last one or is not an assistant
    entry: user messages and earlier assistant messages stay, at their
    positions, exactly as they were. *)
Theorem frames_keep_settled_entries
        (frames : list Data.t) (m : model) (i : nat) (entry : Message.t) :
  messages m !! i = Some entry ->
  settledEntry (messages m) i = true ->
  messages (dispatchAll frames m) !! i = Some entry /\
  length (messages m) <= length (messages (dispatchAll frames m)).
Proof.
  revert m. induction frames as [|data frames IH]; intros m Hi Hs.
  - split; [exact Hi | reflexivity].
  - rewrite dispatchAll_cons.
    destruct (dispatch_cases data m) as (Hm & _).
    assert (Hstep : messages (fst (handleSocketMessage data m)) !! i = Some entry /\
                    settledEntry (messages (fst (handleSocketMessage data m))) i = true /\
                    length (messages m)
                    <= length (messages (fst (handleSocketMessage data m)))).
    { rewrite Hm. destruct (isChatChunk data).
      - destruct (chunkUpdater_keeps data (messages m) i entry Hi Hs) as [H1 H2].
        split; [exact H1|]. split; [exact H2|]. apply length_chunkUpdater.
      - split; [exact Hi|]. split; [exact Hs | reflexivity]. }
    destruct Hstep as (Hi' & Hs' & Hlen).
    destruct (IH _ Hi' Hs') as [Hkeep Hlen'].
    split; [exact Hkeep | lia].
Qed.

Lemma frames_keep_settled_entries_witness :
  messages (dispatchAll [chunk "Hel" false; ready "https://x.test"; chunk "lo" true]
              (setMessages (fun _ => [userSays "hi"]) initialModel)) !! 0
  = Some (userSays "hi").
Proof.
  exact (proj1 (frames_keep_settled_entries
                  [chunk "Hel" false; ready "https://x.test"; chunk "lo" true]
                  (setMessages (fun _ => [userSays "hi"]) initialModel)
                  0 (userSays "hi") eq_refl eq_refl)).
Defined.

(** X6. Inbound frames never start streaming: after any sequence of frames
    the streaming flag is false if one of them was a [chat_chunk] with
    [complete] set, and otherwise is what it was. *)
Theorem frames_only_clear_streaming (frames : list Data.t) (m : model) :
  respStreaming (dispatchAll frames m)
  = respStreaming m && negb (existsb completes frames).
Proof.
  induction frames as [|data frames IH] using rev_ind.
  - simpl. now rewrite andb_true_r.
  - rewrite dispatchAll_snoc.
    destruct (dispatch_cases data (dispatchAll frames m)) as (_ & _ & Hr & _).
    rewrite Hr, IH, existsb_app. simpl.
    destruct (completes data); simpl.
    + rewrite orb_true_r. simpl. now rewrite andb_false_r.
    + now rewrite !orb_false_r.
Qed.

(** ** One whole turn *)

Lemma streamedTurn_inv (data : Data.t) (rest : list Data.t) :
  streamedTurn (data :: rest) = true ->
  isChatChunk data = true /\
  ((rest = [] /\ Data.complete data = true) \/
   (Data.complete data = false /\ streamedTurn rest = true)).
Proof.
  simpl. destruct (isChatChunk data); [|discriminate]. simpl.
  destruct rest as [|d rest'].
  - intros ->. auto.
  - destruct (Data.complete data); simpl; [discriminate|]. auto.
Qed.

Lemma streamedTurn_finishes (chunks : list Data.t) :
  forall m : model,
    streamedTurn chunks = true ->
    respStreaming (dispatchAll chunks m) = false /\
    previewHash (dispatchAll chunks m) = (previewHash m + 1)%Z.
Proof.
  induction chunks as [|data rest IH]; intros m H; [discriminate|].
  apply streamedTurn_inv in H as [Hd [[-> Hc] | [Hc Hrest]]];
    rewrite dispatchAll_cons;
    destruct (dispatch_cases data m) as (_ & Hh & Hr & _);
    unfold completes in Hh, Hr; rewrite Hd, Hc in Hh, Hr; simpl in Hh, Hr.
  - simpl. split; assumption.
  - destruct (IH (fst (handleSocketMessage data m)) Hrest) as [IH1 IH2].
    split; [exact IH1 | now rewrite IH2, Hh].
Qed.

Lemma dispatchAll_fresh_turn (chunks : list Data.t) (m : model) :
  streamedTurn chunks = true ->
  lastIsAssistant (messages m) = false ->
  messages (dispatchAll chunks m)
  = messages m ++ [Message.mk "assistant" (concatContents chunks) None].
Proof.
  destruct chunks as [|data rest]; [discriminate|].
  intros Hturn Hlast.
  apply streamedTurn_cons in Hturn as [Hd Hrest].
  rewrite dispatchAll_cons, (dispatch_chat_chunk data m Hd). simpl fst.
  rewrite (dispatchAll_merge rest (handleChatChunk data m) (messages m)
             (Data.content data) None Hrest); [reflexivity|].
  rewrite messages_handleChatChunk. now apply chunkUpdater_fresh.
Qed.

Lemma run_cons (t : task) (ts : list task) (p : page) :
  run (t :: ts) p = run ts (step p t).
Proof. reflexivity. Qed.

(** Frames arriving on a handle whose listener is registered are folded
    into the model, and touch nothing else of the page. *)
Lemma run_frames (h : nat) (frames : list Data.t) (p : page) :
  listenerOf h p = Some true ->
  run (map (Frame h) frames) p
  = Page (dispatchAll frames (ui p)) (webSocketRef p) (services p) (log p).
Proof.
  revert p. induction frames as [|data frames IH]; intros p Hl.
  - simpl. now destruct p.
  - cbn [map]. rewrite run_cons. cbn [step].
    assert (Hstep : onmessage h data p
                    = render (fun m => fst (handleSocketMessage data m)) p).
    { unfold onmessage. unfold listenerOf in Hl.
      destruct (services p !! h) as [s|]; [|discriminate].
      simpl in Hl. injection Hl as ->. reflexivity. }
    rewrite Hstep, IH; [reflexivity | exact Hl].
Qed.

(** X7. One whole turn on an existing chat.  With a handle stored whose
    listener is registered, sending a message that passes the guard and
    then receiving the chunks of the reply (all incomplete but the last)
    ends with the old transcript followed by the user message and one
    assistant message holding the chunks' contents in order; the streaming
    flag is off again, the preview counter is one higher, and exactly one
    [sendMessage] call was made, carrying the old transcript and the user
    message. *)
Theorem send_then_stream_completes_turn
        (e : env) (message : Draft.t) (p : page) (h : nat) (chunks : list Data.t) :
  String.eqb (chatId e) "new" = false ->
  sendable message = true ->
  webSocketRef p = Some h ->
  listenerOf h p = Some true ->
  streamedTurn chunks = true ->
  let userMessage :=
    Message.mk "user" (Draft.content message)
               (Some (default [] (Draft.images message))) in
  let p' := run (CallHandleSendMessage e message :: map (Frame h) chunks) p in
  messages (ui p')
  = messages (ui p) ++
    [userMessage; Message.mk "assistant" (concatContents chunks) None] /\
  respStreaming (ui p') = false /\
  previewHash (ui p') = (previewHash (ui p) + 1)%Z /\
  log p' = log p ++ [ws_sendMessage h (messages (ui p) ++ [userMessage])].
Proof.
  intros Hchat Hsend Href Hl Hturn userMessage p'. subst p'.
  rewrite run_cons. cbn [step].
  assert (Hsent : fst (handleSendMessage e message p)
                  = Page (setMessages (fun prev => prev ++ [userMessage])
                                      (setRespStreaming true (ui p)))
                         (webSocketRef p) (services p)
                         (log p ++ [ws_sendMessage h (messages (ui p) ++ [userMessage])])).
  { unfold sendable in Hsend. unfold handleSendMessage, emit, render.
    cbn [ui webSocketRef services log]. rewrite Hchat.
    destruct (webSocketRef p) as [h0|]; [|discriminate]. injection Href as ->.
    destruct (truthy (trim (Draft.content message))); [reflexivity|].
    simpl in Hsend.
    destruct (Draft.images message) as [[|img imgs]|]; try discriminate.
    reflexivity. }
  rewrite Hsent, run_frames by exact Hl. cbn [ui log].
  destruct (streamedTurn_finishes chunks
              (setMessages (fun prev => prev ++ [userMessage])
                           (setRespStreaming true (ui p))) Hturn) as [Hr Hh].
  rewrite Hr, Hh, dispatchAll_fresh_turn.
  - simpl. rewrite <- app_assoc. simpl. repeat split.
  - exact Hturn.
  - simpl. unfold lastIsAssistant. now rewrite last_snoc.
Qed.

Lemma send_then_stream_completes_turn_witness :
  messages (ui (run (CallHandleSendMessage existingChat hello
                       :: map (Frame 0) [chunk "Hi" false; chunk " there" true])
                    readySession))
  = [userSays "hello"; Message.mk "assistant" "Hi there" None] /\
  respStreaming (ui (run (CallHandleSendMessage existingChat hello
                            :: map (Frame 0) [chunk "Hi" false; chunk " there" true])
                         readySession)) = false.
Proof.
  destruct (send_then_stream_completes_turn existingChat hello readySession 0
              [chunk "Hi" false; chunk " there" true]
              eq_refl eq_refl eq_refl eq_refl eq_refl) as (Hm & Hr & _).
  split; [exact Hm | exact Hr].
Defined.

(** ** Sending: the new-chat branch and the guard *)

(** X8. On a new chat, for a message that passes the guard (content that
    is not blank, or at least one image), [handleSendMessage] never uses the
    socket, even when a handle is stored, and leaves the streaming flag on.
    With no team in the user context it throws a TypeError before any
    request.  With a team it issues one [createChat] named after the
    message content and carrying the stack and project chosen through
    [handleStackPackSelect] and [handleProjectSelect]; when that request
    fails the error reaches the caller and nothing else is called; when it
    succeeds the chat is added to the user context and the navigation is
    scheduled 100 ms later. *)
Theorem new_chat_creates_and_never_sends
        (e : env) (message : Draft.t) (p : page)
        (stackPackId selectedProject : option string) :
  String.eqb (chatId e) "new" = true ->
  sendable message = true ->
  let p0 := render (handleProjectSelect selectedProject)
                   (render (handleStackPackSelect stackPackId) p) in
  let r := handleSendMessage e message p0 in
  respStreaming (ui (fst r)) = true /\
  match team e with
  | None =>
      snd r = Throw (TypeError "Cannot read properties of null (reading 'id')") /\
      log (fst r) = log p
  | Some teamId =>
      let request :=
        api_createChat (NewChat.mk (Draft.content message)
                                   ("Chat session started on " +:+ today e)
                                   stackPackId selectedProject teamId) in
      match createChat_result e with
      | Throw err => snd r = Throw err /\ log (fst r) = log p ++ [request]
      | Normal chat =>
          snd r = Normal tt /\
          log (fst r)
          = log p ++ [request; addChat chat; setTimeout_push_workspace chat 100]
      end
  end.
Proof.
  intros Hnew Hsend p0 r. subst r p0.
  unfold sendable in Hsend. unfold handleSendMessage. rewrite Hnew.
  destruct (truthy (trim (Draft.content message))).
  - destruct (team e); [destruct (createChat_result e)|]; simpl; repeat split.
    now rewrite <- !app_assoc.
  - simpl in Hsend.
    destruct (Draft.images message) as [[|img imgs]|]; try discriminate.
    destruct (team e); [destruct (createChat_result e)|]; simpl; repeat split.
    now rewrite <- !app_assoc.
Qed.

Lemma new_chat_creates_and_never_sends_witness :
  respStreaming (ui (fst (handleSendMessage newChat hello
     (render (handleProjectSelect (Some "proj-1"))
             (render (handleStackPackSelect (Some "stack-2")) readySession))))) = true /\
  snd (handleSendMessage newChat hello
         (render (handleProjectSelect (Some "proj-1"))
                 (render (handleStackPackSelect (Some "stack-2")) readySession)))
  = Throw (Error "API error: Bad Gateway") /\
  log (fst (handleSendMessage newChat hello
         (render (handleProjectSelect (Some "proj-1"))
                 (render (handleStackPackSelect (Some "stack-2")) readySession))))
  = log readySession ++
    [api_createChat (NewChat.mk "hello" "Chat session started on 11/3/2026"
                                (Some "stack-2") (Some "proj-1") 7%N)].
Proof.
  destruct (new_chat_creates_and_never_sends newChat hello readySession
              (Some "stack-2") (Some "proj-1") eq_refl eq_refl)
    as (Hr & Hthrow & Hlog).
  split; [exact Hr|]. split; [exact Hthrow | exact Hlog].
Defined.

Lemma truthy_trim_whitespaceOnly (s : string) :
  whitespaceOnly s = true -> truthy (trim s) = false.
Proof. intros H. now rewrite (trim_whitespaceOnly s H). Qed.

(** X9. A message object without an [images] field: when the content is
    blank the guard throws a TypeError before anything has changed; when
    the content is not blank the guard never reads the field and the
    message is sent exactly as if it carried an empty list. *)
Theorem missing_images_field (e : env) (content : string) (p : page) :
  (whitespaceOnly content = true ->
   handleSendMessage e (Draft.mk content None) p
   = (p, Throw (TypeError "Cannot read properties of undefined (reading 'length')"))) /\
  (truthy (trim content) = true ->
   handleSendMessage e (Draft.mk content None) p
   = handleSendMessage e (Draft.mk content (Some [])) p).
Proof.
  split; intros H; unfold handleSendMessage; cbn [Draft.content Draft.images].
  - now rewrite (truthy_trim_whitespaceOnly content H).
  - now rewrite H.
Qed.

Lemma missing_images_field_witness :
  handleSendMessage existingChat (Draft.mk blankContent None) readySession
  = (readySession,
     Throw (TypeError "Cannot read properties of undefined (reading 'length')")) /\
  handleSendMessage existingChat (Draft.mk "hello" None) readySession
  = handleSendMessage existingChat hello readySession.
Proof.
  split.
  - exact (proj1 (missing_images_field existingChat blankContent readySession) eq_refl).
  - exact (proj2 (missing_images_field existingChat "hello" readySession) eq_refl).
Defined.

(** ** The preview address *)

Lemma chat_chunk_not_status (data : Data.t) :
  isChatChunk data = true -> isSandboxStatus data = false.
Proof.
  unfold isChatChunk, isSandboxStatus. intros H.
  apply String.eqb_eq in H. now rewrite H.
Qed.

(** X10. Cache busting works: when a preview URL is set, a [chat_chunk]
    with [complete] set changes the address handed to the preview to the
    same URL with the next counter value, which differs from the address
    before. *)
Theorem completed_turn_changes_preview_address
        (data : Data.t) (m : model) (url : string) :
  completes data = true ->
  projectPreviewUrl m = Some url ->
  truthy url = true ->
  previewSrc (fst (handleSocketMessage data m))
  = Some (url +:+ "?v=" +:+ pretty (previewHash m + 1)%Z) /\
  previewSrc (fst (handleSocketMessage data m)) <> previewSrc m.
Proof.
  intros Hc Hu Ht.
  destruct (dispatch_cases data m) as (_ & Hh & _ & Hurl & _).
  rewrite Hc in Hh.
  assert (Hw : writesPreviewUrl data = false).
  { unfold completes in Hc. apply andb_prop in Hc as [Hd _].
    unfold writesPreviewUrl, isReady. now rewrite (chat_chunk_not_status data Hd). }
  rewrite Hw in Hurl.
  unfold previewSrc. rewrite Hurl, Hh, Hu, Ht.
  split; [reflexivity|].
  intros Heq. injection Heq as Heq.
  apply (inj (String.app url)) in Heq.
  apply (inj (String.app "?v=")) in Heq.
  apply (inj pretty) in Heq. lia.
Qed.

Lemma completed_turn_changes_preview_address_witness :
  previewSrc (fst (handleSocketMessage (chunk "done" true) (ui readySession)))
  = Some "https://x.test?v=2".
Proof.
  exact (proj1 (completed_turn_changes_preview_address (chunk "done" true)
                  (ui readySession) "https://x.test" eq_refl eq_refl eq_refl)).
Defined.

(** ** Bookkeeping of handles over whole runs *)

Lemma listenerCalls_snoc (h : nat) (l : list call) (c : call) :
  listenerCalls h (l ++ [c])
  = listenerCalls h l +
    match c with ws_addListener h' => if Nat.eqb h h' then 1 else 0 | _ => 0 end.
Proof.
  unfold listenerCalls. rewrite List.filter_app, length_app. simpl.
  destruct c; simpl; try reflexivity. now destruct (Nat.eqb h h0).
Qed.

Lemma connectCalls_snoc (h : nat) (l : list call) (c : call) :
  connectCalls h (l ++ [c])
  = connectCalls h l +
    match c with ws_connect h' => if Nat.eqb h h' then 1 else 0 | _ => 0 end.
Proof.
  unfold connectCalls. rewrite List.filter_app, length_app. simpl.
  destruct c; simpl; try reflexivity. now destruct (Nat.eqb h h0).
Qed.

Lemma listenerCalls_app (h : nat) (l k : list call) :
  listenerCalls h (l ++ k) = listenerCalls h l + listenerCalls h k.
Proof. unfold listenerCalls. now rewrite List.filter_app, length_app. Qed.

Lemma connectCalls_app (h : nat) (l k : list call) :
  connectCalls h (l ++ k) = connectCalls h l + connectCalls h k.
Proof. unfold connectCalls. now rewrite List.filter_app, length_app. Qed.

Lemma coherent_render (f : model -> model) (p : page) :
  coherent p -> coherent (render f p).
Proof. exact (fun H => H). Qed.

Lemma coherent_emit (c : call) (p : page) :
  quiet c -> coherent p -> coherent (emit c p).
Proof.
  intros Hq (H1 & H2 & H3 & H4). repeat split.
  - exact H1.
  - exact H2.
  - intros h. unfold emit. cbn [log]. rewrite listenerCalls_snoc.
    change (isListening h (Page (ui p) (webSocketRef p) (services p) (log p ++ [c])))
      with (isListening h p).
    rewrite H3. destruct c; simpl in Hq; try contradiction; lia.
  - intros h. unfold emit. cbn [log]. rewrite connectCalls_snoc.
    change (known h (Page (ui p) (webSocketRef p) (services p) (log p ++ [c])))
      with (known h p).
    rewrite H4. destruct c; simpl in Hq; try contradiction; lia.
Qed.

Lemma lookup_onService (h : nat) (f : Service.t -> Service.t) (p : page) (x : nat) :
  services (onService h f p) !! x
  = if decide (h = x) then f <$> services p !! x else services p !! x.
Proof.
  unfold onService. cbn [services].
  destruct (decide (h = x)) as [->|Hne].
  - apply list_lookup_alter_eq.
  - now apply list_lookup_alter_ne.
Qed.

Lemma known_onService (h : nat) (f : Service.t -> Service.t) (p : page) (x : nat) :
  known x (onService h f p) = known x p.
Proof. unfold known, onService. cbn [services]. now rewrite length_alter. Qed.

(** A change to a service that keeps its promise and its listener keeps
    the bookkeeping. *)
Lemma coherent_onService (h : nat) (f : Service.t -> Service.t) (p : page) :
  (forall s, Service.listener (f s) = Service.listener s /\
             Service.connecting (f s) = Service.connecting s) ->
  coherent p -> coherent (onService h f p).
Proof.
  intros Hf (H1 & H2 & H3 & H4).
  assert (Hview : forall x,
             isListening x (onService h f p) = isListening x p /\
             isFulfilled x (onService h f p) = isFulfilled x p).
  { intros x. unfold isListening, isFulfilled. rewrite lookup_onService.
    destruct (decide (h = x)); [|split; reflexivity].
    destruct (services p !! x) as [s|]; simpl; [|split; reflexivity].
    destruct (Hf s) as [-> ->]. split; reflexivity. }
  repeat split.
  - intros x s. rewrite lookup_onService.
    destruct (decide (h = x)); [|apply H1].
    destruct (services p !! x) as [s0|] eqn:E; simpl; [|discriminate].
    intros [= <-]. unfold coherentService. destruct (Hf s0) as [-> ->].
    exact (H1 x s0 E).
  - intros x Hx. rewrite (proj2 (Hview x)). apply H2. exact Hx.
  - intros x. rewrite (proj1 (Hview x)). apply H3.
  - intros x. rewrite known_onService. apply H4.
Qed.

Lemma pending_not_listening (h : nat) (p : page) :
  coherent p -> isPending h p = true ->
  isListening h p = false /\ isFulfilled h p = false /\ known h p = true.
Proof.
  intros (H1 & _) Hp. unfold isPending in Hp. unfold isListening, isFulfilled, known.
  destruct (services p !! h) as [s|] eqn:E; [|discriminate].
  pose proof (H1 h s E) as Hc. unfold coherentService in Hc.
  destruct (Service.connecting s); try discriminate.
  apply Bool.eqb_prop in Hc. rewrite Hc. repeat split.
  apply bool_decide_eq_true. now apply lookup_lt_Some in E.
Qed.

Lemma coherent_onopen (h : nat) (p : page) : coherent p -> coherent (onopen h p).
Proof.
  intros Hc. unfold onopen. destruct (isPending h p) eqn:Hp; [|exact Hc].
  destruct (pending_not_listening h p Hc Hp) as (Hl & Hf & Hk).
  destruct Hc as (H1 & H2 & H3 & H4).
  unfold isPending in Hp.
  destruct (services p !! h) as [s|] eqn:E; [|discriminate].
  assert (Hlook : forall x,
             services (connected h (onService h (settle Fulfilled) p)) !! x
             = if decide (h = x)
               then Some (Service.mk (Service.wsProjectId s) (Service.ws s) Fulfilled true)
               else services p !! x).
  { intros x. unfold connected, setRef, emit, render, onService. cbn [services].
    destruct (decide (h = x)) as [<-|Hne].
    - now rewrite !list_lookup_alter_eq, E.
    - now rewrite !list_lookup_alter_ne. }
  repeat split.
  - intros x s'. rewrite Hlook. destruct (decide (h = x)); [|apply H1].
    intros [= <-]. reflexivity.
  - intros x. unfold connected, setRef. cbn [webSocketRef]. intros [= <-].
    unfold isFulfilled. rewrite Hlook. now rewrite decide_True.
  - intros x. unfold isListening. rewrite Hlook.
    unfold connected, setRef, emit. cbn [log]. rewrite listenerCalls_snoc.
    change (log (onService h svc_addListener
                   (render (setStatus SettingUp) (onService h (settle Fulfilled) p))))
      with (log p).
    rewrite H3. destruct (decide (h = x)) as [<-|Hne].
    + rewrite Hl, Nat.eqb_refl. reflexivity.
    + replace (Nat.eqb x h) with false by (symmetry; apply Nat.eqb_neq; congruence).
      unfold isListening. lia.
  - intros x.
    change (connectCalls x (log p ++ [ws_addListener h])
            = if known x (onService h svc_addListener
                            (onService h (settle Fulfilled) p)) then 1 else 0).
    rewrite !known_onService, connectCalls_snoc, H4. simpl. lia.
Qed.

Lemma coherent_reject (h : nat) (e : js_error) (p : page) :
  coherent p -> coherent (reject h e p).
Proof.
  intros Hc. unfold reject. destruct (isPending h p) eqn:Hp; [|exact Hc].
  destruct (pending_not_listening h p Hc Hp) as (Hl & Hf & Hk).
  destruct Hc as (H1 & H2 & H3 & H4).
  unfold connectFailed. apply coherent_render, coherent_emit; [exact I|].
  unfold isPending in Hp.
  destruct (services p !! h) as [s|] eqn:E; [|discriminate].
  assert (Hlook : forall x,
             services (onService h (settle (Rejected e)) p) !! x
             = if decide (h = x)
               then Some (settle (Rejected e) s)
               else services p !! x).
  { intros x. rewrite lookup_onService.
    destruct (decide (h = x)) as [<-|Hne]; [now rewrite E | reflexivity]. }
  assert (Hs : Service.listener s = false).
  { unfold isListening in Hl. now rewrite E in Hl. }
  repeat split.
  - intros x s'. rewrite Hlook. destruct (decide (h = x)); [|apply H1].
    intros [= <-]. unfold coherentService. simpl. now rewrite Hs.
  - intros x Hx. unfold isFulfilled. rewrite Hlook.
    destruct (decide (h = x)) as [<-|Hne].
    + apply H2 in Hx. congruence.
    + apply H2 in Hx. exact Hx.
  - intros x. unfold isListening. rewrite Hlook.
    change (log (onService h (settle (Rejected e)) p)) with (log p).
    rewrite H3. unfold isListening.
    destruct (decide (h = x)) as [<-|Hne]; [|reflexivity].
    rewrite E. simpl. reflexivity.
  - intros x. rewrite known_onService. apply H4.
Qed.

Lemma services_initializeWebSocket (wsProjectId : string) (p : page) :
  services (initializeWebSocket wsProjectId p)
  = match webSocketRef p with
    | Some cur => alter svc_disconnect cur (services p)
    | None => services p
    end ++ [Service.mk wsProjectId CONNECTING Pending false].
Proof.
  unfold initializeWebSocket.
  destruct (webSocketRef p) as [cur|]; cbn [services emit onService render log ui webSocketRef].
  - rewrite <- (Nat.add_0_r (length (alter svc_disconnect cur (services p)))) at 1.
    now rewrite alter_app_r.
  - rewrite <- (Nat.add_0_r (length (services p))) at 1.
    now rewrite alter_app_r.
Qed.

Lemma webSocketRef_initializeWebSocket (wsProjectId : string) (p : page) :
  webSocketRef (initializeWebSocket wsProjectId p) = webSocketRef p.
Proof.
  unfold initializeWebSocket.
  destruct (webSocketRef p) eqn:E; cbn [webSocketRef emit onService]; now rewrite ?E.
Qed.

Lemma coherent_initializeWebSocket (wsProjectId : string) (p : page) :
  coherent p -> coherent (initializeWebSocket wsProjectId p).
Proof.
  intros Hc.
  set (q := match webSocketRef p with
            | Some cur => onService cur svc_disconnect p
            | None => p
            end).
  assert (Hq : coherent q).
  { subst q. destruct (webSocketRef p); [|exact Hc].
    apply coherent_onService; [|exact Hc]. intros s. split; reflexivity. }
  assert (Hsq : services (initializeWebSocket wsProjectId p)
                = services q ++ [Service.mk wsProjectId CONNECTING Pending false]).
  { rewrite services_initializeWebSocket. subst q. now destruct (webSocketRef p). }
  assert (Hlen : length (services q) = length (services p)).
  { subst q. destruct (webSocketRef p); [apply length_alter | reflexivity]. }
  assert (Hrq : webSocketRef q = webSocketRef p).
  { subst q. destruct (webSocketRef p) eqn:E; simpl; congruence. }
  assert (Hlq : forall h, listenerCalls h (log (initializeWebSocket wsProjectId p))
                          = listenerCalls h (log p)).
  { intros h. rewrite log_initializeWebSocket, listenerCalls_app.
    destruct (webSocketRef p); unfold listenerCalls at 2; simpl; lia. }
  assert (Hcq : forall h, connectCalls h (log (initializeWebSocket wsProjectId p))
                          = connectCalls h (log p)
                            + if Nat.eqb h (length (services p)) then 1 else 0).
  { intros h. rewrite log_initializeWebSocket, connectCalls_app.
    destruct (webSocketRef p); unfold connectCalls at 2; simpl;
      destruct (Nat.eqb h (length (services p))); reflexivity. }
  destruct Hq as (H1 & H2 & _ & _). destruct Hc as (_ & _ & H3 & H4).
  assert (Hl3 : forall h, isListening h q = isListening h p).
  { intros h. subst q. destruct (webSocketRef p) as [cur|]; [|reflexivity].
    unfold isListening. rewrite lookup_onService.
    destruct (decide (cur = h)); [|reflexivity].
    now destruct (services p !! h). }
  repeat split.
  - intros h s. rewrite Hsq. intros Hs.
    apply lookup_snoc_Some in Hs as [[_ Hs] | [_ <-]]; [exact (H1 h s Hs) | reflexivity].
  - intros h. rewrite webSocketRef_initializeWebSocket, <- Hrq. intros Hh.
    pose proof (H2 h Hh) as Hf. unfold isFulfilled in *. rewrite Hsq.
    destruct (services q !! h) as [s|] eqn:E; [|discriminate].
    now rewrite (lookup_app_l_Some _ _ _ _ E).
  - intros h. rewrite Hlq, H3, <- Hl3. unfold isListening. rewrite Hsq.
    destruct (services q !! h) as [s|] eqn:E.
    + now rewrite (lookup_app_l_Some _ _ _ _ E).
    + apply lookup_ge_None in E. rewrite lookup_app_r by exact E.
      destruct (h - length (services q)) as [|n]; simpl; [reflexivity|].
      now destruct n.
  - intros h. rewrite Hcq, H4. unfold known. rewrite Hsq, length_app, Hlen. simpl.
    destruct (Nat.eqb_spec h (length (services p))) as [->|Hne].
    + rewrite bool_decide_eq_false_2 by lia. rewrite bool_decide_eq_true_2 by lia.
      reflexivity.
    + destruct (decide (h < length (services p))).
      * rewrite !bool_decide_eq_true_2 by lia. lia.
      * rewrite !bool_decide_eq_false_2 by lia. lia.
Qed.

Lemma coherent_handleSendMessage (e : env) (message : Draft.t) (p : page) :
  coherent p -> coherent (fst (handleSendMessage e message p)).
Proof.
  intros Hc. unfold handleSendMessage.
  repeat match goal with
         | |- context [match ?x with _ => _ end] => destruct x
         end; cbn [fst];
    repeat first [exact Hc
                 | apply coherent_render
                 | apply coherent_emit; [exact I|]].
Qed.

Lemma coherent_step (p : page) (t : task) : coherent p -> coherent (step p t).
Proof.
  intros Hc. destruct t as [id|h|h|h|h|h data|e message]; cbn [step].
  - now apply coherent_initializeWebSocket.
  - apply coherent_onopen, coherent_onService; [|exact Hc].
    intros s. unfold svc_opened. destruct (Service.ws s); split; reflexivity.
  - now apply coherent_reject.
  - unfold onclose.
    assert (Hq : coherent (onService h svc_closed p)).
    { apply coherent_onService; [|exact Hc]. intros s. split; reflexivity. }
    destruct (services (onService h svc_closed p) !! h); [|exact Hq].
    now apply coherent_render, coherent_render.
  - now apply coherent_reject.
  - unfold onmessage. destruct (services p !! h) as [s|]; [|exact Hc].
    destruct (Service.listener s); [|exact Hc]. now apply coherent_render.
  - now apply coherent_handleSendMessage.
Qed.

Lemma coherent_initialPage : coherent initialPage.
Proof. repeat split; intros h; try reflexivity; intros; discriminate. Qed.

Lemma coherent_run (ts : list task) (p : page) : coherent p -> coherent (run ts p).
Proof.
  revert p. induction ts as [|t ts IH]; intros p Hc; [exact Hc|].
  rewrite run_cons. apply IH, coherent_step, Hc.
Qed.

(** X11. In every state the page can reach from its initial one, the handle
    stored in [webSocketRef] (the only one [sendMessage] is ever called on)
    has a fulfilled connect promise and its listener registered: a handle
    that is still connecting, or whose connect was rejected, is never
    stored. *)
Theorem stored_handle_is_connected_and_listening (ts : list task) (h : nat) :
  webSocketRef (run ts initialPage) = Some h ->
  isFulfilled h (run ts initialPage) = true /\
  isListening h (run ts initialPage) = true.
Proof.
  intros Href.
  destruct (coherent_run ts initialPage coherent_initialPage) as (H1 & H2 & _).
  pose proof (H2 h Href) as Hf. split; [exact Hf|].
  unfold isFulfilled in Hf. unfold isListening.
  destruct (services (run ts initialPage) !! h) as [s|] eqn:E; [|discriminate].
  pose proof (H1 h s E) as Hc. unfold coherentService in Hc.
  destruct (Service.connecting s); try discriminate.
  now apply Bool.eqb_prop in Hc.
Qed.

Lemma stored_handle_is_connected_and_listening_witness :
  isFulfilled 0 (run busyDay initialPage) = true /\
  isListening 0 (run busyDay initialPage) = true.
Proof.
  exact (stored_handle_is_connected_and_listening busyDay 0 eq_refl).
Defined.

(** X12. In every reachable state and for every handle: [connect()] has
    been called exactly once on each service the page created (and on no
    other), so a failed or closed service is never connected again; and
    the message listener has been registered once if the service's connect
    was fulfilled and not at all otherwise. *)
Theorem one_connect_and_at_most_one_listener (ts : list task) (h : nat) :
  connectCalls h (log (run ts initialPage))
  = (if known h (run ts initialPage) then 1 else 0) /\
  listenerCalls h (log (run ts initialPage))
  = (if isFulfilled h (run ts initialPage) then 1 else 0).
Proof.
  destruct (coherent_run ts initialPage coherent_initialPage) as (H1 & _ & H3 & H4).
  split; [apply H4|].
  rewrite H3. unfold isListening, isFulfilled.
  destruct (services (run ts initialPage) !! h) as [s|] eqn:E; [|reflexivity].
  pose proof (H1 h s E) as Hc. unfold coherentService in Hc.
  apply Bool.eqb_prop in Hc. now rewrite Hc.
Qed.

Lemma webSocketRef_handleSendMessage (e : env) (message : Draft.t) (p : page) :
  webSocketRef (fst (handleSendMessage e message p)) = webSocketRef p /\
  status (ui (fst (handleSendMessage e message p))) = status (ui p).
Proof.
  unfold handleSendMessage.
  repeat match goal with
         | |- context [match ?x with _ => _ end] => destruct x eqn:?
         end; cbn; auto.
Qed.

Lemma connectedProp_step (p : page) (t : task) :
  connectedProp p = true -> connectedProp (step p t) = true.
Proof.
  unfold connectedProp. intros H.
  destruct t as [id|h|h|h|h|h data|e message]; cbn [step].
  - now rewrite webSocketRef_initializeWebSocket.
  - unfold onopen. destruct (isPending h _); [reflexivity | exact H].
  - unfold onerror, reject. destruct (isPending h p); exact H.
  - unfold onclose. destruct (services _ !! h); exact H.
  - unfold ontimeout, reject. destruct (isPending h p); exact H.
  - unfold onmessage. destruct (services p !! h) as [s|]; [|exact H].
    destruct (Service.listener s); exact H.
  - now rewrite (proj1 (webSocketRef_handleSendMessage e message p)).
Qed.

(** X13. [webSocketRef] is never reset.  Once a handle is stored, no task
    (a close or error of its socket, a failed re-open, a timeout, a frame,
    a send) clears it, so the [connected] prop of the chat stays true
    after the connection is lost. *)
Theorem connected_prop_never_turns_false (ts : list task) (p : page) :
  connectedProp p = true -> connectedProp (run ts p) = true.
Proof.
  revert p. induction ts as [|t ts IH]; intros p H; [exact H|].
  rewrite run_cons. apply IH, connectedProp_step, H.
Qed.

Lemma connected_prop_never_turns_false_witness :
  connectedProp (run [SocketError 0; SocketClose 0] readySession) = true /\
  status (ui (run [SocketError 0; SocketClose 0] readySession)) = Disconnected.
Proof.
  split.
  - exact (connected_prop_never_turns_false [SocketError 0; SocketClose 0]
             readySession eq_refl).
  - reflexivity.
Defined.

Lemma isBadge_step (p : page) (t : task) :
  isBadge (status (ui p)) = true -> isBadge (status (ui (step p t))) = true.
Proof.
  intros H.
  destruct t as [id|h|h|h|h|h data|e message]; cbn [step].
  - unfold initializeWebSocket. destruct (webSocketRef p); exact H.
  - unfold onopen. destruct (isPending h _); [reflexivity | exact H].
  - unfold onerror, reject. destruct (isPending h p); [reflexivity | exact H].
  - unfold onclose. destruct (services _ !! h); [reflexivity | exact H].
  - unfold ontimeout, reject. destruct (isPending h p); [reflexivity | exact H].
  - unfold onmessage. destruct (services p !! h) as [s|]; [|exact H].
    destruct (Service.listener s); [|exact H]. cbn [render ui].
    destruct (dispatch_cases data (ui p)) as (_ & _ & _ & _ & Hs & _).
    rewrite Hs. destruct (isReady data || isBuilding data); [|exact H].
    unfold badgeOf. now destruct (String.eqb (Data.status data) "READY").
  - now rewrite (proj2 (webSocketRef_handleSendMessage e message p)).
Qed.

(** X14. The status badge is always one of the three label/colour pairs
    (Disconnected/gray, Setting up/yellow, Ready/green): no task produces a
    label with another colour or any other label. *)
Theorem badge_is_always_one_of_three (ts : list task) (p : page) :
  isBadge (status (ui p)) = true -> isBadge (status (ui (run ts p))) = true.
Proof.
  revert p. induction ts as [|t ts IH]; intros p H; [exact H|].
  rewrite run_cons. apply IH, isBadge_step, H.
Qed.

Lemma badge_is_always_one_of_three_witness :
  isBadge (status (ui (run busyDay initialPage))) = true.
Proof. exact (badge_is_always_one_of_three busyDay initialPage eq_refl). Defined.

(** * Further properties of the REST client *)

Lemma drop_own_length_app {A} (l k : list A) : drop (length l) (l ++ k) = k.
Proof. induction l as [|a l IH]; [reflexivity | exact IH]. Qed.


(** Unfolds a public method down to the shared request helper. *)
Ltac unfold_api :=
  unfold Api.some, Api.createAccount, Api.getCurrentUser, Api.getTeams,
    Api.getChats, Api.createChat, Api.getChat, Api.updateChat,
    Api.getTeamProjects, Api.getProject, Api.getProjectFile,
    Api.getStackPacks, Api.deleteChat,
    Api._get, Api._post, Api._patch, Api._delete.

Lemma perform_sends_one (o : Api.op) (reply : Api.fetched) (b : Api.browser) :
  exists rq,
    Api.requests (fst (Api.perform o reply b)) = Api.requests b ++ [rq] /\
    Api.authorization rq = Api.bearer b.
Proof.
  destruct o; cbn [Api.perform]; unfold_api;
    repeat match goal with
           | |- context [match ?x with _ => _ end] => destruct x
           end;
    eexists; split; reflexivity.
Qed.

Lemma perform_keeps_token (o : Api.op) (reply : Api.fetched) (b : Api.browser) :
  writesToken o = false ->
  Api.token (fst (Api.perform o reply b)) = Api.token b.
Proof.
  destruct o; try discriminate; intros _; cbn [Api.perform]; unfold_api; reflexivity.
Qed.

Lemma perform_stays_logged_out (o : Api.op) (reply : Api.fetched) (b : Api.browser) :
  isCreateAccount o = false ->
  Api.token b = None ->
  Api.token (fst (Api.perform o reply b)) = None.
Proof.
  destruct o; try discriminate; intros _ Hb; cbn [Api.perform]; unfold_api;
    repeat match goal with
           | |- context [match ?x with _ => _ end] => destruct x
           end; cbn; try exact Hb; reflexivity.
Qed.

Lemma performAll_snoc (calls : list (Api.op * Api.fetched))
      (call : Api.op * Api.fetched) (b : Api.browser) :
  performAll (calls ++ [call]) b
  = fst (Api.perform (fst call) (snd call) (performAll calls b)).
Proof. unfold performAll. now rewrite foldl_snoc. Qed.

(** Over a run of calls that all keep the stored token at [tok], one
    request is sent per call and each carries the header for [tok]. *)
Lemma performAll_headers (allowed : Api.op -> bool) (tok : option string)
      (calls : list (Api.op * Api.fetched)) (b : Api.browser) :
  (forall o reply b', allowed o = true -> Api.token b' = tok ->
                      Api.token (fst (Api.perform o reply b')) = tok) ->
  forallb (fun call => allowed (fst call)) calls = true ->
  Api.token b = tok ->
  Api.token (performAll calls b) = tok /\
  length (sentSince b (performAll calls b)) = length calls /\
  Forall (fun rq => Api.authorization rq = "Bearer " +:+ default "null" tok)
         (sentSince b (performAll calls b)).
Proof.
  intros Hkeep Hall Hb.
  assert (H : Api.token (performAll calls b) = tok /\
              exists rs, Api.requests (performAll calls b) = Api.requests b ++ rs /\
                         length rs = length calls /\
                         Forall (fun rq => Api.authorization rq
                                           = "Bearer " +:+ default "null" tok) rs).
  { induction calls as [|call calls IH] using rev_ind.
    - split; [exact Hb|]. exists []. rewrite app_nil_r. repeat split. constructor.
    - rewrite forallb_app in Hall. apply andb_prop in Hall as [Hcalls Hcall].
      simpl in Hcall. rewrite andb_true_r in Hcall.
      destruct (IH Hcalls) as (Htok & rs & Hrs & Hlen & Hhdr).
      rewrite performAll_snoc. split; [now apply Hkeep|].
      destruct (perform_sends_one (fst call) (snd call) (performAll calls b))
        as (rq & Hrq & Hauth).
      exists (rs ++ [rq]). split; [|split].
      + rewrite Hrq, Hrs. now rewrite <- app_assoc.
      + rewrite !length_app, Hlen. reflexivity.
      + apply Forall_app. split; [exact Hhdr|]. constructor; [|constructor].
        rewrite Hauth. unfold Api.bearer. now rewrite Htok. }
  destruct H as (Htok & rs & Hrs & Hlen & Hhdr).
  split; [exact Htok|]. unfold sentSince. rewrite Hrs, drop_own_length_app.
  split; assumption.
Qed.

(** X15. Every method of the client hands exactly one request to [fetch],
    whatever the answer turns out to be, and that request carries the
    header "Bearer " followed by the token stored at the time of the call;
    with no token stored the header is the literal "Bearer null". *)
Theorem every_request_carries_the_stored_token
        (o : Api.op) (reply : Api.fetched) (b : Api.browser) :
  exists rq,
    sent b (fst (Api.perform o reply b)) = Some rq /\
    Api.authorization rq
    = match Api.token b with
      | Some tok => "Bearer " +:+ tok
      | None => "Bearer null"
      end.
Proof.
  destruct (perform_sends_one o reply b) as (rq & Hrq & Hauth).
  exists rq. split.
  - unfold sent. now rewrite Hrq, drop_own_length_app.
  - rewrite Hauth. unfold Api.bearer. now destruct (Api.token b).
Qed.

(** X16. For every method other than [createAccount], a 2xx response whose
    body parses is returned to the caller as the parsed body, and neither
    the stored token nor the page is touched. *)
Theorem success_returns_body_and_keeps_token
        (o : Api.op) (res : Api.response) (b : Api.browser) (v : json) :
  isCreateAccount o = false ->
  Api.ok res = true ->
  Api.json_ res = Normal v ->
  snd (Api.perform o (Api.Responds res) b) = Normal (Some v) /\
  Api.token (fst (Api.perform o (Api.Responds res) b)) = Api.token b /\
  Api.reloads (fst (Api.perform o (Api.Responds res) b)) = Api.reloads b.
Proof.
  intros Hno Hok Hv.
  destruct o; try discriminate; cbn [Api.perform]; unfold_api;
    unfold Api.settle; rewrite Hok, Hv; repeat split.
Qed.

Lemma success_returns_body_and_keeps_token_witness :
  snd (Api.perform Api.GetCurrentUser (Api.Responds (signedUp "abc")) loggedIn)
  = Normal (Some (JObj [("token", JStr "abc");
                        ("user", JObj [("username", JStr "ada")])])) /\
  Api.token (fst (Api.perform Api.GetCurrentUser (Api.Responds (signedUp "abc")) loggedIn))
  = Some "t0k3n".
Proof.
  destruct (success_returns_body_and_keeps_token Api.GetCurrentUser
              (signedUp "abc") loggedIn _ eq_refl eq_refl eq_refl) as (Hv & Ht & _).
  split; [exact Hv | exact Ht].
Defined.

(** X17. Signing up and then calling.  When [createAccount] receives a 2xx
    body that is an object with a string [token], it stores that token and
    returns the body's [user].  Over every later run of calls, whatever
    their answers, that stays the stored token and every request sent
    carries "Bearer " followed by exactly that token, for as long as
    neither [createAccount] nor [getCurrentUser] (the two methods that
    write the token) is called again. *)
Theorem createAccount_token_is_used_afterwards
        (username : json) (res : Api.response) (b : Api.browser)
        (fields : list (string * json)) (tok : string)
        (calls : list (Api.op * Api.fetched)) :
  Api.ok res = true ->
  Api.json_ res = Normal (JObj fields) ->
  assoc "token" fields = Some (JStr tok) ->
  forallb (fun call => negb (writesToken (fst call))) calls = true ->
  let b1 := fst (Api.createAccount username (Api.Responds res) b) in
  Api.token b1 = Some tok /\
  snd (Api.createAccount username (Api.Responds res) b) = Normal (assoc "user" fields) /\
  Api.token (performAll calls b1) = Some tok /\
  length (sentSince b1 (performAll calls b1)) = length calls /\
  Forall (fun rq => Api.authorization rq = "Bearer " +:+ tok)
         (sentSince b1 (performAll calls b1)).
Proof.
  intros Hok Hbody Htok Hcalls b1.
  assert (Hb1 : Api.token b1 = Some tok).
  { subst b1. unfold Api.createAccount, Api._post, Api.settle.
    rewrite Hok, Hbody. cbn [getProp]. rewrite Htok. reflexivity. }
  split; [exact Hb1|]. split.
  - unfold Api.createAccount, Api._post, Api.settle.
    rewrite Hok, Hbody. cbn [getProp]. rewrite Htok. reflexivity.
  - apply (performAll_headers (fun o => negb (writesToken o)) (Some tok) calls b1);
      [|exact Hcalls | exact Hb1].
    intros o reply b' Ho Hb'. rewrite perform_keeps_token; [exact Hb'|].
    now destruct (writesToken o).
Qed.

Lemma createAccount_token_is_used_afterwards_witness :
  Api.token (fst (Api.createAccount (JStr "ada") (Api.Responds (signedUp "abc")) anonymous))
  = Some "abc" /\
  length (sentSince
            (fst (Api.createAccount (JStr "ada") (Api.Responds (signedUp "abc")) anonymous))
            (performAll laterCalls
               (fst (Api.createAccount (JStr "ada") (Api.Responds (signedUp "abc"))
                       anonymous)))) = 3 /\
  Forall (fun rq => Api.authorization rq = "Bearer abc")
         (sentSince
            (fst (Api.createAccount (JStr "ada") (Api.Responds (signedUp "abc")) anonymous))
            (performAll laterCalls
               (fst (Api.createAccount (JStr "ada") (Api.Responds (signedUp "abc"))
                       anonymous)))).
Proof.
  destruct (createAccount_token_is_used_afterwards (JStr "ada") (signedUp "abc")
              anonymous _ "abc" laterCalls eq_refl eq_refl eq_refl eq_refl)
    as (Ht & _ & _ & Hn & Hh).
  split; [exact Ht|]. split; [exact Hn | exact Hh].
Defined.

(** X18. A sign-up answer without a usable token.  If the 2xx body is an
    object with no [token] field, [createAccount] stores the string
    "undefined" as the token and still returns normally; if the body is
    [null] it throws a TypeError and leaves the stored token alone. *)
Theorem createAccount_without_token
        (username : json) (res : Api.response) (b : Api.browser) :
  Api.ok res = true ->
  (forall fields, Api.json_ res = Normal (JObj fields) ->
                  assoc "token" fields = None ->
                  Api.token (fst (Api.createAccount username (Api.Responds res) b))
                  = Some "undefined" /\
                  snd (Api.createAccount username (Api.Responds res) b)
                  = Normal (assoc "user" fields)) /\
  (Api.json_ res = Normal JNull ->
   Api.token (fst (Api.createAccount username (Api.Responds res) b)) = Api.token b /\
   snd (Api.createAccount username (Api.Responds res) b)
   = Throw (TypeError "Cannot read properties of null (reading 'token')")).
Proof.
  intros Hok. split.
  - intros fields Hbody Htok.
    unfold Api.createAccount, Api._post, Api.settle.
    rewrite Hok, Hbody. cbn [getProp]. rewrite Htok. split; reflexivity.
  - intros Hbody.
    unfold Api.createAccount, Api._post, Api.settle.
    rewrite Hok, Hbody. split; reflexivity.
Qed.

Lemma createAccount_without_token_witness :
  Api.token (fst (Api.createAccount (JStr "ada")
                    (Api.Responds signedUpWithoutToken) anonymous))
  = Some "undefined".
Proof.
  exact (proj1 (proj1 (createAccount_without_token (JStr "ada")
                         signedUpWithoutToken anonymous eq_refl)
                  _ eq_refl eq_refl)).
Defined.

Lemma includes_append_l (a s needle : string) :
  includes s needle = true -> includes (a +:+ s) needle = true.
Proof.
  intros H. induction a as [|c a IH]; [exact H|].
  rewrite append_cons. cbn [includes]. rewrite IH. apply orb_true_r.
Qed.

(** X19. Being logged out.  When [getCurrentUser] receives a non-2xx
    response whose status text contains "Unauthorized", the token is
    removed and the page reloaded once, and the error still reaches the
    caller.  Over every later run of calls, whatever their answers, no
    token is stored and every request sent carries the header
    "Bearer null", until [createAccount] is called again. *)
Theorem unauthorized_me_logs_out
        (res : Api.response) (b : Api.browser)
        (calls : list (Api.op * Api.fetched)) :
  Api.ok res = false ->
  includes (Api.statusText res) "Unauthorized" = true ->
  forallb (fun call => negb (isCreateAccount (fst call))) calls = true ->
  let b1 := fst (Api.getCurrentUser (Api.Responds res) b) in
  Api.token b1 = None /\
  Api.reloads b1 = S (Api.reloads b) /\
  snd (Api.getCurrentUser (Api.Responds res) b)
  = Throw (Error ("API error: " +:+ Api.statusText res)) /\
  Api.token (performAll calls b1) = None /\
  length (sentSince b1 (performAll calls b1)) = length calls /\
  Forall (fun rq => Api.authorization rq = "Bearer null")
         (sentSince b1 (performAll calls b1)).
Proof.
  intros Hok Hinc Hcalls b1.
  assert (Hrun : Api.getCurrentUser (Api.Responds res) b
                 = (Api.reload (Api.removeToken
                      (Api.fetch (Api.Request "GET" "/api/auth/me" None (Api.bearer b) None) b)),
                    Throw (Error ("API error: " +:+ Api.statusText res)))).
  { unfold Api.getCurrentUser, Api._get. rewrite (settle_not_ok res Hok).
    cbn [message]. rewrite (includes_append_l "API error: " _ _ Hinc).
    now rewrite orb_true_r. }
  subst b1. rewrite Hrun. cbn [fst snd].
  split; [reflexivity|]. split; [reflexivity|]. split; [reflexivity|].
  apply (performAll_headers (fun o => negb (isCreateAccount o)) None calls);
    [|exact Hcalls | reflexivity].
  intros o reply b' Ho Hb'. apply perform_stays_logged_out; [|exact Hb'].
  now destruct (isCreateAccount o).
Qed.

Lemma unauthorized_me_logs_out_witness :
  Api.token (fst (Api.getCurrentUser (Api.Responds unauthorized) loggedIn)) = None /\
  Api.reloads (fst (Api.getCurrentUser (Api.Responds unauthorized) loggedIn)) = 1 /\
  Forall (fun rq => Api.authorization rq = "Bearer null")
         (sentSince (fst (Api.getCurrentUser (Api.Responds unauthorized) loggedIn))
            (performAll ((Api.GetCurrentUser, Api.Responds unauthorized) :: laterCalls)
               (fst (Api.getCurrentUser (Api.Responds unauthorized) loggedIn)))).
Proof.
  destruct (unauthorized_me_logs_out unauthorized loggedIn
              ((Api.GetCurrentUser, Api.Responds unauthorized) :: laterCalls)
              eq_refl eq_refl eq_refl) as (Ht & Hr & _ & _ & _ & Hh).
  split; [exact Ht|]. split; [exact Hr | exact Hh].
Defined.

(** * The sidebar *)

(** ** Stable sorting *)

Section SortBy.
Context {A : Type} (cmp : A -> A -> Z).

Hypothesis cmp_total : forall a b, (cmp a b <= 0)%Z \/ (cmp b a <= 0)%Z.
Hypothesis cmp_trans :
  forall a b c, (cmp a b <= 0)%Z -> (cmp b c <= 0)%Z -> (cmp a c <= 0)%Z.

Lemma insertBy_Permutation (x : A) (l : list A) : insertBy cmp x l ≡ₚ x :: l.
Proof.
  induction l as [|y l IH]; [reflexivity|]. simpl.
  destruct (cmp x y <=? 0)%Z; [reflexivity|].
  rewrite IH. apply perm_swap.
Qed.

Lemma sortBy_Permutation (l : list A) : sortBy cmp l ≡ₚ l.
Proof.
  induction l as [|x l IH]; [reflexivity|].
  unfold sortBy. simpl. fold (sortBy cmp l).
  now rewrite insertBy_Permutation, IH.
Qed.

Lemma insertBy_StronglySorted (x : A) (l : list A) :
  StronglySorted (mayPrecede cmp) l -> StronglySorted (mayPrecede cmp) (insertBy cmp x l).
Proof.
  induction l as [|y l IH]; intros Hs; simpl.
  - constructor; constructor.
  - apply StronglySorted_inv in Hs as [Hl Hy].
    destruct (Z.leb_spec (cmp x y) 0) as [Hle|Hgt].
    + constructor; [constructor; assumption|].
      constructor; [exact Hle|].
      eapply Forall_impl; [exact Hy|]. intros z Hz. exact (cmp_trans x y z Hle Hz).
    + constructor; [apply IH, Hl|].
      assert (Hyx : mayPrecede cmp y x) by (destruct (cmp_total x y); [lia | assumption]).
      rewrite (insertBy_Permutation x l). constructor; assumption.
Qed.

Lemma sortBy_StronglySorted (l : list A) : StronglySorted (mayPrecede cmp) (sortBy cmp l).
Proof.
  induction l as [|x l IH]; [constructor|].
  unfold sortBy. simpl. fold (sortBy cmp l).
  now apply insertBy_StronglySorted.
Qed.

End SortBy.

(** ** Grouping the chats by project *)

Lemma own_push (k k' : string) (c : Sidebar.chat) (acc : list (string * list Sidebar.chat)) :
  Sidebar.own k' (Sidebar.push k c acc)
  = if String.eqb k' k then (fun cs => cs ++ [c]) <$> Sidebar.own k acc
    else Sidebar.own k' acc.
Proof.
  induction acc as [|[k0 cs] acc IH]; simpl.
  - now destruct (String.eqb k' k).
  - destruct (String.eqb_spec k k0) as [->|Hk]; simpl.
    + destruct (String.eqb_spec k' k0) as [->|Hk']; [reflexivity|].
      reflexivity.
    + destruct (String.eqb_spec k' k0) as [->|Hk'].
      * destruct (String.eqb_spec k0 k) as [->|_]; [contradiction | reflexivity].
      * exact IH.
Qed.

Lemma own_snoc (k k' : string) (g : list Sidebar.chat) (acc : list (string * list Sidebar.chat)) :
  Sidebar.own k' (acc ++ [(k, g)])
  = match Sidebar.own k' acc with
    | Some cs => Some cs
    | None => if String.eqb k' k then Some g else None
    end.
Proof.
  induction acc as [|[k0 cs] acc IH]; simpl; [reflexivity|].
  destruct (String.eqb k' k0); [reflexivity | exact IH].
Qed.

Lemma own_None_keys (k : string) (acc : list (string * list Sidebar.chat)) :
  Sidebar.own k acc = None -> ~ In k (map fst acc).
Proof.
  induction acc as [|[k0 cs] acc IH]; simpl; [tauto|].
  destruct (String.eqb_spec k k0) as [->|Hk]; [discriminate|].
  intros H [Heq|Hin]; [congruence | exact (IH H Hin)].
Qed.

Lemma own_In (k : string) (cs : list Sidebar.chat) (acc : list (string * list Sidebar.chat)) :
  NoDup (map fst acc) -> In (k, cs) acc -> Sidebar.own k acc = Some cs.
Proof.
  induction acc as [|[k0 cs0] acc IH]; simpl; [tauto|].
  intros Hnd [Heq|Hin].
  - injection Heq as -> ->. now rewrite String.eqb_refl.
  - apply NoDup_cons in Hnd as [Hk0 Hnd].
    destruct (String.eqb_spec k k0) as [->|Hk]; [|exact (IH Hnd Hin)].
    exfalso. apply Hk0. apply list_elem_of_In.
    change k0 with (fst (k0, cs)). now apply in_map.
Qed.

Lemma keys_push (k : string) (c : Sidebar.chat) (acc : list (string * list Sidebar.chat)) :
  map fst (Sidebar.push k c acc) = map fst acc.
Proof.
  induction acc as [|[k0 cs] acc IH]; simpl; [reflexivity|].
  destruct (String.eqb k k0); simpl; [reflexivity | now rewrite IH].
Qed.

Lemma concat_push (k : string) (c : Sidebar.chat) (g : list Sidebar.chat)
      (acc : list (string * list Sidebar.chat)) :
  Sidebar.own k acc = Some g ->
  concat (map snd (Sidebar.push k c acc)) ≡ₚ c :: concat (map snd acc).
Proof.
  induction acc as [|[k0 cs] acc IH]; simpl; [discriminate|].
  destruct (String.eqb k k0); simpl.
  - intros _. rewrite <- app_assoc. simpl.
    rewrite <- Permutation_middle. reflexivity.
  - intros H. rewrite (IH H). now rewrite Permutation_middle.
Qed.

Lemma chatsOf_snoc (k : string) (cs : list Sidebar.chat) (c : Sidebar.chat) :
  chatsOf k (cs ++ [c])
  = chatsOf k cs ++ (if sameProject k c then [c] else []).
Proof.
  unfold chatsOf. rewrite List.filter_app. simpl. now destruct (sameProject k c).
Qed.

(** One step of the reducer, when it does not throw. *)
Lemma reducer_spec (processed : list Sidebar.chat) (c : Sidebar.chat)
      (acc acc' : list (string * list Sidebar.chat)) :
  Sidebar.reducer acc c = Normal acc' ->
  groupsOf processed acc ->
  NoDup (map fst acc) ->
  groupsOf (processed ++ [c]) acc' /\
  NoDup (map fst acc') /\
  concat (map snd acc') ≡ₚ c :: concat (map snd acc).
Proof.
  unfold Sidebar.reducer. intros Hr Hg Hnd.
  destruct (Sidebar.own (Sidebar.projectName c) acc) as [g|] eqn:Hown.
  - injection Hr as <-. split; [|split].
    + intros k. rewrite own_push, chatsOf_snoc. unfold sameProject.
      rewrite (String.eqb_sym (Sidebar.projectName c) k).
      destruct (String.eqb_spec k (Sidebar.projectName c)) as [->|Hk].
      * rewrite Hown. rewrite (Hg (Sidebar.projectName c)) in Hown.
        destruct (chatsOf (Sidebar.projectName c) processed) as [|x xs];
          [discriminate|]. injection Hown as <-. reflexivity.
      * rewrite app_nil_r. apply Hg.
    + now rewrite keys_push.
    + exact (concat_push _ c g acc Hown).
  - destruct (Sidebar.inherited (Sidebar.projectName c)); [discriminate|].
    injection Hr as <-. split; [|split].
    + intros k. rewrite own_snoc, chatsOf_snoc. unfold sameProject.
      rewrite (String.eqb_sym (Sidebar.projectName c) k).
      destruct (String.eqb_spec k (Sidebar.projectName c)) as [->|Hk].
      * rewrite Hown. rewrite (Hg (Sidebar.projectName c)) in Hown.
        destruct (chatsOf (Sidebar.projectName c) processed) as [|x xs];
          [reflexivity | discriminate].
      * rewrite app_nil_r, (Hg k). now destruct (chatsOf k processed).
    + rewrite map_app. simpl. apply NoDup_app. split; [exact Hnd|]. split.
      * intros x Hx Hin. apply list_elem_of_In in Hin as [Heq|[]]. subst x.
        apply (own_None_keys _ _ Hown). now apply list_elem_of_In.
      * apply NoDup_singleton.
    + rewrite map_app, concat_app. simpl.
      symmetry. apply Permutation_cons_append.
Qed.

Lemma reduce_spec (cs : list Sidebar.chat) :
  forall (processed : list Sidebar.chat) (acc acc' : list (string * list Sidebar.chat)),
    Sidebar.reduce cs acc = Normal acc' ->
    groupsOf processed acc ->
    NoDup (map fst acc) ->
    groupsOf (processed ++ cs) acc' /\
    NoDup (map fst acc') /\
    concat (map snd acc') ≡ₚ concat (map snd acc) ++ cs.
Proof.
  induction cs as [|c cs IH]; intros processed acc acc' Hr Hg Hnd; simpl in Hr.
  - injection Hr as <-. rewrite !app_nil_r.
    split; [exact Hg|]. split; [exact Hnd | reflexivity].
  - destruct (Sidebar.reducer acc c) as [acc1|] eqn:Hstep; [|discriminate].
    destruct (reducer_spec processed c acc acc1 Hstep Hg Hnd) as (Hg1 & Hnd1 & Hp1).
    destruct (IH (processed ++ [c]) acc1 acc' Hr Hg1 Hnd1) as (Hg' & Hnd' & Hp').
    rewrite <- app_assoc in Hg'. split; [exact Hg'|]. split; [exact Hnd'|].
    rewrite Hp', Hp1. apply Permutation_middle.
Qed.

(** The reducer throws exactly when a chat's project name is inherited. *)
Lemma reduce_completes (cs : list Sidebar.chat) :
  forall acc : list (string * list Sidebar.chat),
    forallb (fun e => negb (Sidebar.inherited (fst e))) acc = true ->
    Sidebar.reduce cs acc
    = (if existsb hasInheritedName cs
       then Throw (TypeError "acc[projectName].push is not a function")
       else Sidebar.reduce cs acc) /\
    (existsb hasInheritedName cs = false ->
     exists acc', Sidebar.reduce cs acc = Normal acc').
Proof.
  induction cs as [|c cs IH]; intros acc Hacc; simpl.
  - split; [reflexivity|]. intros _. now exists acc.
  - unfold hasInheritedName at 1 3. unfold Sidebar.reducer.
    destruct (Sidebar.inherited (Sidebar.projectName c)) eqn:Hinh; simpl.
    + assert (Hown : Sidebar.own (Sidebar.projectName c) acc = None).
      { clear IH. induction acc as [|[k0 g] acc IHa]; [reflexivity|]. simpl in *.
        apply andb_prop in Hacc as [Hk0 Hacc].
        destruct (String.eqb_spec (Sidebar.projectName c) k0) as [<-|_].
        - now rewrite Hinh in Hk0.
        - exact (IHa Hacc). }
      rewrite Hown. split; [reflexivity | discriminate].
    + destruct (Sidebar.own (Sidebar.projectName c) acc) as [g|] eqn:Hown.
      * apply IH.
        clear IH Hown. induction acc as [|[k0 g0] acc IHa]; [reflexivity|].
        simpl in *. apply andb_prop in Hacc as [Hk0 Hacc].
        destruct (String.eqb (Sidebar.projectName c) k0); simpl;
          rewrite Hk0; simpl; [exact Hacc | exact (IHa Hacc)].
      * apply IH. rewrite forallb_app, Hacc. simpl. now rewrite Hinh.
Qed.

Lemma filter_split_Permutation {A} (f : A -> bool) (l : list A) :
  List.filter f l ++ List.filter (fun x => negb (f x)) l ≡ₚ l.
Proof.
  induction l as [|x l IH]; [reflexivity|]. simpl.
  destruct (f x); simpl.
  - now rewrite IH.
  - rewrite <- Permutation_middle. now rewrite IH.
Qed.

Lemma entries_Permutation (acc : list (string * list Sidebar.chat)) :
  Sidebar.entries acc ≡ₚ acc.
Proof.
  unfold Sidebar.entries. rewrite sortBy_Permutation. apply filter_split_Permutation.
Qed.

Lemma existsb_insertBy {A} (cmp : A -> A -> Z) (f : A -> bool) (x : A) (l : list A) :
  existsb f (insertBy cmp x l) = f x || existsb f l.
Proof.
  induction l as [|y l IH]; [reflexivity|]. simpl.
  destruct (cmp x y <=? 0)%Z; simpl; [reflexivity|].
  rewrite IH. destruct (f x), (f y); reflexivity.
Qed.

Lemma existsb_sortBy {A} (cmp : A -> A -> Z) (f : A -> bool) (l : list A) :
  existsb f (sortBy cmp l) = existsb f l.
Proof.
  induction l as [|x l IH]; [reflexivity|].
  unfold sortBy. simpl. fold (sortBy cmp l). now rewrite existsb_insertBy, IH.
Qed.

Lemma StronglySorted_filter {A} (R : A -> A -> Prop) (f : A -> bool) (l : list A) :
  StronglySorted R l -> StronglySorted R (List.filter f l).
Proof.
  induction 1 as [|x l Hl IH Hx]; simpl; [constructor|].
  destruct (f x); [|exact IH].
  constructor; [exact IH|].
  apply List.Forall_forall. intros y Hy. apply List.filter_In in Hy as [Hy _].
  rewrite List.Forall_forall in Hx. exact (Hx y Hy).
Qed.

Lemma foldl_max_bounds (l : list Z) (init : Z) :
  (init <= foldl Z.max init l)%Z /\
  (forall x, In x l -> x <= foldl Z.max init l)%Z.
Proof.
  revert init. induction l as [|y l IH]; intros init; simpl.
  - split; [lia | intros x []].
  - destruct (IH (Z.max init y)) as [H1 H2]. split; [lia|].
    intros x [<-|Hx]; [lia | exact (H2 x Hx)].
Qed.

Lemma maxId_upper (cs : list Sidebar.chat) (c : Sidebar.chat) :
  In c cs -> (Sidebar.id c <= Sidebar.maxId cs)%Z.
Proof.
  destruct cs as [|c0 rest]; [intros []|]. simpl.
  destruct (foldl_max_bounds (map Sidebar.id rest) (Sidebar.id c0)) as [H1 H2].
  intros [<-|Hc]; [exact H1|]. apply H2. now apply in_map.
Qed.

(** What the reducer has built once the sorted chats went through it. *)
Lemma grouped_inv (chats : list Sidebar.chat) (gs : list (string * list Sidebar.chat)) :
  Sidebar.grouped chats = Normal gs ->
  exists acc,
    gs = sortBy Sidebar.byMaxIdDescending (Sidebar.entries acc) /\
    gs ≡ₚ acc /\
    NoDup (map fst acc) /\
    concat (map snd acc) ≡ₚ chats /\
    (forall k cs, In (k, cs) acc ->
                  cs <> [] /\
                  cs = chatsOf k (sortBy Sidebar.byIdDescending chats)).
Proof.
  unfold Sidebar.grouped. intros H.
  destruct (Sidebar.reduce (sortBy Sidebar.byIdDescending chats) [])
    as [acc|] eqn:Hr; [|discriminate].
  injection H as <-. exists acc.
  assert (Hg0 : groupsOf [] []) by (intros k; reflexivity).
  destruct (reduce_spec _ [] [] acc Hr Hg0 (NoDup_nil_2)) as (Hg & Hnd & Hp).
  simpl in Hg, Hp.
  split; [reflexivity|]. split.
  { rewrite sortBy_Permutation. apply entries_Permutation. }
  split; [exact Hnd|]. split.
  { rewrite Hp. apply sortBy_Permutation. }
  intros k cs Hin.
  pose proof (own_In k cs acc Hnd Hin) as Hown. rewrite (Hg k) in Hown.
  destruct (chatsOf k (sortBy Sidebar.byIdDescending chats)) as [|x xs];
    [discriminate|].
  injection Hown as <-. split; [discriminate | reflexivity].
Qed.

(** X20. Rendering the sidebar's groups throws a TypeError exactly when
    some chat belongs to a project whose name is a property every object
    inherits ("constructor", "toString", "__proto__", ...): the reducer
    takes the inherited value for an existing group and calls [push] on
    it.  With no such project name the grouping completes. *)
Theorem grouping_throws_on_inherited_project_name (chats : list Sidebar.chat) :
  (existsb hasInheritedName chats = true ->
   Sidebar.grouped chats
   = Throw (TypeError "acc[projectName].push is not a function")) /\
  (existsb hasInheritedName chats = false ->
   exists gs, Sidebar.grouped chats = Normal gs).
Proof.
  unfold Sidebar.grouped.
  destruct (reduce_completes (sortBy Sidebar.byIdDescending chats) [] eq_refl)
    as [Hthrow Hok].
  rewrite existsb_sortBy in Hthrow, Hok.
  split; intros H.
  - rewrite Hthrow, H. reflexivity.
  - destruct (Hok H) as [acc ->]. eexists. reflexivity.
Qed.

Lemma grouping_throws_on_inherited_project_name_witness :
  Sidebar.grouped (Sidebar.Chat 3 "notes" (Some "constructor") :: Sidebar.sampleChats)
  = Throw (TypeError "acc[projectName].push is not a function") /\
  exists gs, Sidebar.grouped Sidebar.sampleChats = Normal gs.
Proof.
  split.
  - exact (proj1 (grouping_throws_on_inherited_project_name
                    (Sidebar.Chat 3 "notes" (Some "constructor") :: Sidebar.sampleChats))
                 eq_refl).
  - exact (proj2 (grouping_throws_on_inherited_project_name Sidebar.sampleChats)
                 eq_refl).
Defined.

(** X21. When the grouping completes, every chat is listed exactly once:
    the groups, taken together, are a rearrangement of the chats; no
    project name heads two groups; no group is empty; and every chat sits
    in the group named after its project ("No Project" when it has none or
    the name is empty). *)
Theorem grouping_lists_every_chat_once
        (chats : list Sidebar.chat) (gs : list (string * list Sidebar.chat)) :
  Sidebar.grouped chats = Normal gs ->
  concat (map snd gs) ≡ₚ chats /\
  NoDup (map fst gs) /\
  Forall (fun e => snd e <> [] /\
                   Forall (fun c => Sidebar.projectName c = fst e) (snd e)) gs.
Proof.
  intros H. destruct (grouped_inv chats gs H) as (acc & _ & Hperm & Hnd & Hall & Hgroup).
  split; [|split].
  - rewrite <- Hall, <- !flat_map_concat_map. now rewrite Hperm.
  - rewrite Hperm. exact Hnd.
  - apply List.Forall_forall. intros [k cs] Hin.
    assert (Hacc : In (k, cs) acc).
    { apply (Permutation_in _ Hperm). exact Hin. }
    destruct (Hgroup k cs Hacc) as [Hne Hcs]. split; [exact Hne|]. simpl.
    rewrite Hcs. apply List.Forall_forall. intros c Hc.
    apply List.filter_In in Hc as [_ Hc]. now apply String.eqb_eq in Hc.
Qed.

Lemma grouping_lists_every_chat_once_witness :
  exists gs, Sidebar.grouped Sidebar.sampleChats = Normal gs /\
             concat (map snd gs) ≡ₚ Sidebar.sampleChats /\
             NoDup (map fst gs).
Proof.
  eexists. split; [reflexivity|].
  destruct (grouping_lists_every_chat_once Sidebar.sampleChats _ eq_refl)
    as (Hp & Hn & _).
  split; [exact Hp | exact Hn].
Defined.

Lemma byIdDescending_total (a b : Sidebar.chat) :
  (Sidebar.byIdDescending a b <= 0)%Z \/ (Sidebar.byIdDescending b a <= 0)%Z.
Proof. unfold Sidebar.byIdDescending. lia. Qed.

Lemma byMaxIdDescending_total (a b : string * list Sidebar.chat) :
  (Sidebar.byMaxIdDescending a b <= 0)%Z \/ (Sidebar.byMaxIdDescending b a <= 0)%Z.
Proof. unfold Sidebar.byMaxIdDescending. lia. Qed.

(** X22. When the grouping completes, the newest comes first throughout:
    inside every group the chats are in descending order of id, the groups
    are in descending order of their largest id, and that largest id
    bounds every chat of the group. *)
Theorem grouping_orders_newest_first
        (chats : list Sidebar.chat) (gs : list (string * list Sidebar.chat)) :
  Sidebar.grouped chats = Normal gs ->
  Forall (fun e => StronglySorted newerFirst (snd e)) gs /\
  StronglySorted newestProjectFirst gs /\
  Forall (fun e => Forall (fun c => (Sidebar.id c <= Sidebar.maxId (snd e))%Z) (snd e)) gs.
Proof.
  intros H. destruct (grouped_inv chats gs H) as (acc & Hgs & Hperm & _ & _ & Hgroup).
  split; [|split].
  - apply List.Forall_forall. intros [k cs] Hin.
    assert (Hacc : In (k, cs) acc) by (apply (Permutation_in _ Hperm); exact Hin).
    destruct (Hgroup k cs Hacc) as [_ ->]. simpl.
    apply StronglySorted_filter.
    assert (Hs := sortBy_StronglySorted Sidebar.byIdDescending
                    byIdDescending_total
                    ltac:(unfold Sidebar.byIdDescending; intros; lia) chats).
    eapply StronglySorted_ind with (P := StronglySorted newerFirst) in Hs;
      [exact Hs | constructor |].
    intros x l _ IH Hx. constructor; [exact IH|].
    eapply Forall_impl; [exact Hx|]. intros y Hy.
    unfold newerFirst, mayPrecede, Sidebar.byIdDescending in *. lia.
  - rewrite Hgs.
    assert (Hs := sortBy_StronglySorted Sidebar.byMaxIdDescending
                    byMaxIdDescending_total
                    ltac:(unfold Sidebar.byMaxIdDescending; intros; lia)
                    (Sidebar.entries acc)).
    eapply StronglySorted_ind with (P := StronglySorted newestProjectFirst) in Hs;
      [exact Hs | constructor |].
    intros x l _ IH Hx. constructor; [exact IH|].
    eapply Forall_impl; [exact Hx|]. intros y Hy.
    unfold newestProjectFirst, mayPrecede, Sidebar.byMaxIdDescending in *. lia.
  - apply List.Forall_forall. intros e _.
    apply List.Forall_forall. intros c Hc. now apply maxId_upper.
Qed.

Lemma grouping_orders_newest_first_witness :
  exists gs, Sidebar.grouped Sidebar.sampleChats = Normal gs /\
             StronglySorted newestProjectFirst gs.
Proof.
  eexists. split; [reflexivity|].
  exact (proj1 (proj2 (grouping_orders_newest_first Sidebar.sampleChats _ eq_refl))).
Defined.

(** ** The sidebar's handlers *)

Lemma prefix_append (s rest : string) : String.prefix s (s +:+ rest) = true.
Proof.
  induction s as [|c s IH]; [now destruct rest|].
  rewrite append_cons. simpl. destruct (Ascii.ascii_dec c c); [exact IH | contradiction].
Qed.

Lemma includes_unfold (hay needle : string) :
  includes hay needle
  = String.prefix needle hay ||
    match hay with
    | EmptyString => false
    | String _ hay' => includes hay' needle
    end.
Proof. destruct hay; reflexivity. Qed.

Lemma includes_middle (before needle after : string) :
  includes (before +:+ needle +:+ after) needle = true.
Proof.
  apply includes_append_l. rewrite includes_unfold. now rewrite prefix_append.
Qed.

(** X23. Submitting a rename.  A blank name (empty or only whitespace)
    makes no request and stays in edit mode.  Any other name is sent
    trimmed, as the only request.  If the rename fails the error is logged
    with [console.error], the chat list is not refreshed and edit mode
    stays; if the refresh fails that error is logged and edit mode stays;
    edit mode is left exactly when both succeed.  Nothing is thrown. *)
Theorem rename_submit_sends_trimmed_name
        (w : Sidebar.world) (chatId : Z) (s : Sidebar.state) :
  (whitespaceOnly (Sidebar.editingName s) = true ->
   Sidebar.handleRenameSubmit w chatId s
   = Sidebar.emit Sidebar.stopPropagation (Sidebar.emit Sidebar.preventDefault s)) /\
  (truthy (trim (Sidebar.editingName s)) = true ->
   let s' := Sidebar.handleRenameSubmit w chatId s in
   Sidebar.editingChatId s'
   = match Sidebar.updateChat_result w, Sidebar.refreshChats_result w with
     | Normal _, Normal _ => None
     | _, _ => Sidebar.editingChatId s
     end /\
   Sidebar.editingName s' = Sidebar.editingName s /\
   Sidebar.log s'
   = Sidebar.log s ++
     [Sidebar.preventDefault; Sidebar.stopPropagation;
      Sidebar.api_updateChat chatId (trim (Sidebar.editingName s))] ++
     match Sidebar.updateChat_result w, Sidebar.refreshChats_result w with
     | Throw e, _ => [Sidebar.console_error "Failed to rename chat:" e]
     | Normal _, Throw e =>
         [Sidebar.refreshChats; Sidebar.console_error "Failed to rename chat:" e]
     | Normal _, Normal _ => [Sidebar.refreshChats]
     end).
Proof.
  split; intros H; unfold Sidebar.handleRenameSubmit.
  - now rewrite (truthy_trim_whitespaceOnly _ H).
  - rewrite H.
    destruct (Sidebar.updateChat_result w) as [v|e];
      [destruct (Sidebar.refreshChats_result w) as [u|e]|];
      (split; [reflexivity|]); (split; [reflexivity|]);
      cbn [Sidebar.log Sidebar.emit Sidebar.setEditingChatId];
      rewrite <- !app_assoc; reflexivity.
Qed.

Lemma rename_submit_sends_trimmed_name_witness :
  Sidebar.handleRenameSubmit Sidebar.quietWorld 12 (renaming blankContent)
  = Sidebar.emit Sidebar.stopPropagation
      (Sidebar.emit Sidebar.preventDefault (renaming blankContent)) /\
  Sidebar.editingChatId
    (Sidebar.handleRenameSubmit Sidebar.quietWorld 12 (renaming "  plan  ")) = None /\
  Sidebar.log (Sidebar.handleRenameSubmit failingWorld 12 (renaming "  plan  "))
  = [Sidebar.preventDefault; Sidebar.stopPropagation;
     Sidebar.api_updateChat 12 "plan";
     Sidebar.console_error "Failed to rename chat:" (Error "API error: Not Found")].
Proof.
  split; [|split].
  - exact (proj1 (rename_submit_sends_trimmed_name Sidebar.quietWorld 12
                    (renaming blankContent)) eq_refl).
  - exact (proj1 (proj2 (rename_submit_sends_trimmed_name Sidebar.quietWorld 12
                           (renaming "  plan  ")) eq_refl)).
  - exact (proj2 (proj2 (proj2 (rename_submit_sends_trimmed_name failingWorld 12
                                  (renaming "  plan  ")) eq_refl))).
Defined.

(** X24. Deleting a chat.  If the user declines the confirmation nothing is
    requested.  If the delete and the refresh succeed, the sidebar
    navigates to the new-chat page whenever the current path contains
    "/chats/" followed by the deleted id, which is the case for the page of
    the deleted chat and also for the page of any chat whose id merely
    starts with the same digits. *)
Theorem delete_redirects_on_path_substring
        (w : Sidebar.world) (chatId : Z) (s : Sidebar.state) :
  (Sidebar.confirmed w = false ->
   Sidebar.log (Sidebar.handleDelete w chatId s)
   = Sidebar.log s ++
     [Sidebar.stopPropagation;
      Sidebar.confirm "Are you sure you want to delete this chat?"]) /\
  (forall before after v,
     Sidebar.confirmed w = true ->
     Sidebar.deleteChat_result w = Normal v ->
     Sidebar.refreshChats_result w = Normal tt ->
     Sidebar.pathname w = before +:+ Sidebar.chatPath chatId +:+ after ->
     Sidebar.log (Sidebar.handleDelete w chatId s)
     = Sidebar.log s ++
       [Sidebar.stopPropagation;
        Sidebar.confirm "Are you sure you want to delete this chat?";
        Sidebar.api_deleteChat chatId; Sidebar.refreshChats;
        Sidebar.router_push "/chats/new"]).
Proof.
  split.
  - intros H. unfold Sidebar.handleDelete. rewrite H.
    cbn [Sidebar.log Sidebar.emit]. now rewrite <- app_assoc.
  - intros before after v Hc Hd Hr Hp. unfold Sidebar.handleDelete.
    rewrite Hc, Hd, Hr, Hp, includes_middle.
    cbn [Sidebar.log Sidebar.emit]. now rewrite <- !app_assoc.
Qed.

Lemma delete_redirects_on_path_substring_witness :
  Sidebar.log (Sidebar.handleDelete Sidebar.quietWorld 1 Sidebar.initial)
  = [Sidebar.stopPropagation;
     Sidebar.confirm "Are you sure you want to delete this chat?";
     Sidebar.api_deleteChat 1; Sidebar.refreshChats;
     Sidebar.router_push "/chats/new"].
Proof.
  exact (proj2 (delete_redirects_on_path_substring Sidebar.quietWorld 1 Sidebar.initial)
               "" "2" JNull eq_refl eq_refl eq_refl eq_refl).
Defined.

(** X25. Starting a rename.  For an id that some chat carries, the sidebar
    enters edit mode for that id with the name of the first such chat.  For
    an id no chat carries the handler throws a TypeError, but only after it
    has already entered edit mode for that id, with the edited name left as
    it was. *)
Theorem rename_of_unknown_chat_throws_after_entering_edit_mode
        (w : Sidebar.world) (chatId : Z) (s : Sidebar.state) :
  (existsb (hasId chatId) (Sidebar.chats w) = false ->
   snd (Sidebar.handleRename w chatId s)
   = Throw (TypeError "Cannot read properties of undefined (reading 'name')") /\
   Sidebar.editingChatId (fst (Sidebar.handleRename w chatId s)) = Some chatId /\
   Sidebar.editingName (fst (Sidebar.handleRename w chatId s)) = Sidebar.editingName s) /\
  (existsb (hasId chatId) (Sidebar.chats w) = true ->
   snd (Sidebar.handleRename w chatId s) = Normal tt /\
   Sidebar.editingChatId (fst (Sidebar.handleRename w chatId s)) = Some chatId /\
   exists c, In c (Sidebar.chats w) /\ Sidebar.id c = chatId /\
             Sidebar.editingName (fst (Sidebar.handleRename w chatId s))
             = Sidebar.name c).
Proof.
  unfold Sidebar.handleRename. split; intros H.
  - destruct (List.find (fun c => Z.eqb (Sidebar.id c) chatId) (Sidebar.chats w))
      as [c|] eqn:E.
    + apply List.find_some in E as [Hin Hid].
      assert (Hex : existsb (hasId chatId) (Sidebar.chats w) = true).
      { apply List.existsb_exists. exists c. split; assumption. }
      congruence.
    + repeat split.
  - destruct (List.find (fun c => Z.eqb (Sidebar.id c) chatId) (Sidebar.chats w))
      as [c|] eqn:E.
    + apply List.find_some in E as [Hin Hid]. apply Z.eqb_eq in Hid.
      split; [reflexivity|]. split; [reflexivity|]. exists c. repeat split; assumption.
    + apply List.existsb_exists in H as (c & Hin & Hid).
      pose proof (List.find_none _ _ E c Hin) as Hno. unfold hasId in Hid. congruence.
Qed.

Lemma rename_of_unknown_chat_throws_after_entering_edit_mode_witness :
  snd (Sidebar.handleRename Sidebar.quietWorld 99 Sidebar.initial)
  = Throw (TypeError "Cannot read properties of undefined (reading 'name')") /\
  Sidebar.editingChatId (fst (Sidebar.handleRename Sidebar.quietWorld 99 Sidebar.initial))
  = Some 99%Z.
Proof.
  destruct (proj1 (rename_of_unknown_chat_throws_after_entering_edit_mode
                     Sidebar.quietWorld 99 Sidebar.initial) eq_refl) as (Ht & Hi & _).
  split; [exact Ht | exact Hi].
Defined.
